(** * An in-memory task manager: [task_manager.py]

    A shallow embedding of the classes [Task] and [TaskManager] and the
    properties of their methods.

    Python objects are modelled by their address: a reference to a [Task] is
    the address of the object, the object heap maps addresses to the fields
    of the live objects, and the builtin [id] of an object is its address.
    The two things the runtime chooses, the address of a new object and the
    reading of the clock, are explicit arguments of the constructor. *)

From Stdlib Require Import ZArith String Ascii List Bool Lia DecimalString.
From stdpp Require Import gmap strings list fin_maps relations.

(** ** Strings

    A [string] is a Python [str] whose code points are below 256, one
    [ascii] per code point. *)

Module Str.

(** [str.lower] on one code point below 256: the capitals A-Z, and the
    Latin-1 capitals U+00C0-U+00D6 and U+00D8-U+00DE, move up by 32; every
    other code point is its own lowercase. *)
Definition lower_char (c : ascii) : ascii :=
  let n := nat_of_ascii c in
  if (Nat.leb 65 n && Nat.leb n 90)
     || (Nat.leb 192 n && Nat.leb n 214)
     || (Nat.leb 216 n && Nat.leb n 222)
  then ascii_of_nat (n + 32)
  else c.

(** [s.lower()] *)
Fixpoint lower (s : string) : string :=
  match s with
  | EmptyString => EmptyString
  | String c s' => String (lower_char c) (lower s')
  end.

(** [s.startswith(p)] *)
Fixpoint startswith (p s : string) : bool :=
  match p, s with
  | EmptyString, _ => true
  | String _ _, EmptyString => false
  | String a p', String b s' => if Ascii.eqb a b then startswith p' s' else false
  end.

(** [sub in s]: [sub] occurs in [s] at some position. *)
Fixpoint contains (sub s : string) : bool :=
  startswith sub s
  || match s with
     | EmptyString => false
     | String _ s' => contains sub s'
     end.

(** What [sub in s] is to mean: [s] is [sub] with text before and after. *)
Definition substring_of (sub s : string) : Prop :=
  exists before after : string, s = before +:+ sub +:+ after.

End Str.

(** ** Exceptions and results *)

Inductive exn : Type :=
| ValueError (msg : string)
| IndexError (msg : string).

Inductive result (A : Type) : Type :=
| Return (a : A)
| Raise (e : exn).

Arguments Return {A} a.
Arguments Raise {A} e.

(** ** class Task *)

Module Task.

Record t : Type := mk {
  id : Z;
  title : string;
  description : string;
  priority : string;
  completed : bool;
  created_at : Z
}.

(** [Task.__init__]: [self] is the address the runtime gave the new
    object, [now] the value of [datetime.now()]. *)
Definition init (self now : Z) (title description priority : string) : t :=
  {| id := self;
     title := title;
     description := description;
     priority := Str.lower priority;
     completed := false;
     created_at := now |}.

(** [Task.mark_complete]: the fields of the object after the call. *)
Definition mark_complete (self : t) : t :=
  {| id := id self;
     title := title self;
     description := description self;
     priority := priority self;
     completed := true;
     created_at := created_at self |}.

End Task.

(** ** The object heap and the store *)

(** The live [Task] objects by address, and the list [self.tasks] of one
    [TaskManager]: a list of references. *)
Record world : Type := World {
  heap : gmap Z Task.t;
  tasks : list Z
}.

(** [TaskManager()] in a heap with no tasks. *)
Definition initial : world := {| heap := ∅; tasks := [] |}.

(** The builtin [id(obj)]: the address of the object. *)
Definition py_id (obj : Z) : Z := obj.

(** [enumerate(l)], counting from [i]. *)
Fixpoint enumerate_from {A : Type} (i : nat) (l : list A) : list (nat * A) :=
  match l with
  | [] => []
  | x :: l' => (i, x) :: enumerate_from (S i) l'
  end.

(** [l.pop(i)] for an index [i >= 0]: the list without position [i]; outside
    the list Python raises [IndexError]. *)
Definition pop (i : nat) (l : list Z) : result (list Z) :=
  if Nat.ltb i (length l) then Return (delete i l)
  else Raise (IndexError "pop index out of range").

(** ** class TaskManager *)

Module TaskManager.

Definition valid_priorities : list string := ["high"; "medium"; "low"].

(** [add_task]: the priority is checked before anything is built.
    [self_addr] is the address the runtime gives the new [Task], one that
    no live object has (the premise of [step_add_task] below), and [now]
    the reading of the clock in its constructor. *)
Definition add_task (self_addr now : Z) (title description priority : string)
    (w : world) : result Z * world :=
  if decide (Str.lower priority ∉ valid_priorities) then
    (Raise (ValueError "Priority must be 'high', 'medium', or 'low'"), w)
  else
    let task := self_addr in
    (Return task,
     {| heap := <[task := Task.init self_addr now title description priority]> (heap w);
        tasks := tasks w ++ [task] |}).

(** [list_all_tasks] *)
Definition list_all_tasks (w : world) : result (list Z) * world :=
  (Return (tasks w), w).

(** The [for] loop of [mark_complete] over the references still to visit. *)
Fixpoint mark_complete_loop (task_id : Z) (l : list Z) (w : world)
    : result bool * world :=
  match l with
  | [] => (Return false, w)
  | task :: rest =>
      if decide (py_id task = task_id) then
        (Return true,
         {| heap := alter Task.mark_complete task (heap w); tasks := tasks w |})
      else mark_complete_loop task_id rest w
  end.

Definition mark_complete (task_id : Z) (w : world) : result bool * world :=
  mark_complete_loop task_id (tasks w) w.

(** The [for] loop of [delete_task] over the pairs of [enumerate]. *)
Fixpoint delete_task_loop (task_id : Z) (en : list (nat * Z)) (w : world)
    : result bool * world :=
  match en with
  | [] => (Return false, w)
  | (i, task) :: rest =>
      if decide (py_id task = task_id) then
        match pop i (tasks w) with
        | Return l' => (Return true, {| heap := heap w; tasks := l' |})
        | Raise e => (Raise e, w)
        end
      else delete_task_loop task_id rest w
  end.

Definition delete_task (task_id : Z) (w : world) : result bool * world :=
  delete_task_loop task_id (enumerate_from 0 (tasks w)) w.

(** [t.priority == p] for a reference [t]. *)
Definition has_priority (w : world) (p : string) (t : Z) : Prop :=
  Task.priority <$> heap w !! t = Some p.

#[global] Instance has_priority_dec w p t : Decision (has_priority w p t).
Proof. unfold has_priority. apply _. Defined.

Definition filter_by_priority (priority : string) (w : world)
    : result (list Z) * world :=
  (Return (filter (has_priority w (Str.lower priority)) (tasks w)), w).

(** The condition of the comprehension in [search_by_keyword]. *)
Definition keyword_in (keyword_lower : string) (t : Task.t) : bool :=
  Str.contains keyword_lower (Str.lower (Task.title t))
  || Str.contains keyword_lower (Str.lower (Task.description t)).

Definition matches (w : world) (keyword_lower : string) (t : Z) : Prop :=
  keyword_in keyword_lower <$> heap w !! t = Some true.

#[global] Instance matches_dec w k t : Decision (matches w k t).
Proof. unfold matches. apply _. Defined.

Definition search_by_keyword (keyword : string) (w : world)
    : result (list Z) * world :=
  let keyword_lower := Str.lower keyword in
  (Return (filter (matches w keyword_lower) (tasks w)), w).

End TaskManager.

Import TaskManager.

(** ** Runs of a program that uses one store

    One step is a call that changes the world: [add_task] (the runtime
    places the new object at an address no live object has), [mark_complete],
    [delete_task], a [Task] built outside the store, or the runtime freeing
    an object the store no longer refers to. The queries change nothing. *)

Inductive step : world -> world -> Prop :=
| step_add_task a now title description priority w :
    heap w !! a = None ->
    step w (snd (add_task a now title description priority w))
| step_mark_complete task_id w :
    step w (snd (mark_complete task_id w))
| step_delete_task task_id w :
    step w (snd (delete_task task_id w))
| step_Task a now title description priority w :
    heap w !! a = None ->
    step w {| heap := <[a := Task.init a now title description priority]> (heap w);
              tasks := tasks w |}
| step_free a w :
    a ∉ tasks w ->
    step w {| heap := delete a (heap w); tasks := tasks w |}.

Definition reachable (w : world) : Prop := rtc step initial w.

(** What every reachable world satisfies. *)
Record wf (w : world) : Prop := Wf {
  wf_live : forall a, a ∈ tasks w -> is_Some (heap w !! a);
  wf_id : forall a t, heap w !! a = Some t -> Task.id t = a;
  wf_nodup : NoDup (tasks w);
  wf_priority : forall a t,
    a ∈ tasks w -> heap w !! a = Some t -> Task.priority t ∈ valid_priorities
}.

(** The [id] fields of the tasks the store holds, in order. *)
Definition held_ids (w : world) : list Z :=
  omap (fun a => Task.id <$> heap w !! a) (tasks w).

(** The runtime frees the object at [a] (the world of [step_free]). *)
Definition free (a : Z) (w : world) : world :=
  {| heap := delete a (heap w); tasks := tasks w |}.

(** A step after which the object at [a] is live. From a world where it is
    live too this is a step the object lives through: [add_task] and the
    constructor build at an address that is not live, and freeing leaves
    the address not live. *)
Definition step_keeping (a : Z) (w w' : world) : Prop :=
  step w w' /\ is_Some (heap w' !! a).

(** The store of [main] after its four calls of [add_task], the objects at
    four addresses of the runtime's choosing. *)
Definition main_world : world :=
  let w := snd (add_task 4096 1 "Complete project" "Finish the Python project" "high" initial) in
  let w := snd (add_task 4160 2 "Review code" "Review pull requests" "medium" w) in
  let w := snd (add_task 4224 3 "Update docs" "Update documentation" "low" w) in
  snd (add_task 4288 4 "Bug fix" "Fix critical bug in payment system" "high" w).

(** A run in which the runtime places a new task where a deleted one was:
    a task is added and deleted, its object is freed, and the next task is
    built at the address that became free. *)
Definition reuse_added : world :=
  snd (add_task 4096 1 "Old" "" "high" initial).

Definition reuse_deleted : world :=
  snd (delete_task 4096 reuse_added).

Definition reuse_freed : world :=
  {| heap := delete 4096%Z (heap reuse_deleted); tasks := tasks reuse_deleted |}.

Definition reuse_added_again : world :=
  snd (add_task 4096 2 "New" "" "low" reuse_freed).

(** ** Text and printing

    The text that [__str__] builds and [print] writes has the two status
    marks in it, code points above 255: it is a list of code points. *)

(** The code points of a [string]. *)
Fixpoint code_points (s : string) : list N :=
  match s with
  | EmptyString => []
  | String c s' => N_of_ascii c :: code_points s'
  end.

(** [str(i)] for an integer [i >= 0]: its decimal digits. *)
Definition str_of_nat (i : nat) : list N :=
  code_points (NilEmpty.string_of_uint (Nat.to_uint i)).

(** The marks of [__str__]: U+2713 for a completed task, U+25CB for a
    pending one. *)
Definition check_mark : N := 10003.
Definition white_circle : N := 9675.

(** [Task.__str__]: [[status] title (Priority: priority) - description]. *)
Definition Task_str (self : Task.t) : list N :=
  let status := if Task.completed self then [check_mark] else [white_circle] in
  code_points "[" ++ status ++ code_points "] " ++ code_points (Task.title self)
  ++ code_points " (Priority: " ++ code_points (Task.priority self)
  ++ code_points ") - " ++ code_points (Task.description self).

(** [str(task)] for a reference [task] to a live object (the empty text
    stands for a reference to no object, which no Python value is). *)
Definition str_of_ref (w : world) (task : Z) : list N :=
  from_option Task_str [] (heap w !! task).

(** ["="*60] *)
Definition border : list N := replicate 60 61%N.

(** The line feed. *)
Definition LF : N := 10.

(** The [for] loop of [display_tasks] over the pairs of [enumerate]: the
    arguments of its calls of [print], in order. *)
Fixpoint display_loop (w : world) (en : list (nat * Z)) : list (list N) :=
  match en with
  | [] => []
  | (i, task) :: rest =>
      (str_of_nat i ++ code_points ". " ++ str_of_ref w task) :: display_loop w rest
  end.

(** [display_tasks]: the arguments of its calls of [print], in order (each
    call writes its argument and a line feed). [None] is the default of the
    parameter. *)
Definition display_tasks (tasks_arg : option (list Z)) (w : world) : list (list N) :=
  let display_list :=
    match tasks_arg with
    | Some l => l
    | None => tasks w
    end in
  match display_list with
  | [] => [code_points "No tasks found."]
  | _ :: _ =>
      [[LF] ++ border]
      ++ display_loop w (enumerate_from 1 display_list)
      ++ [border ++ [LF]]
  end.

(** ** Calls of [print]

    A call of [print] can raise: the output cannot encode a status mark, or
    it is closed. [stdout sent text] is [None] when the call [print(text)]
    returns, the calls with the arguments [sent] having returned before it,
    and the exception it raises otherwise. *)

(** How a run of [main] ends: normally, with an exception of the store, or
    with the exception of a call of [print]. *)
Inductive ending (E : Type) : Type :=
| Ends
| Raises (e : exn)
| PrintRaises (e : E).

Arguments Ends {E}.
Arguments Raises {E} e.
Arguments PrintRaises {E} e.

Section Printing.

Variable E : Type.
Variable stdout : list (list N) -> list N -> option E.

(** The calls of [print] with the arguments [prints], one after the other,
    up to the first that raises: its exception, if any, and the arguments
    of the calls that returned, those of [sent] first. *)
Fixpoint print_all (sent prints : list (list N)) : option E * list (list N) :=
  match prints with
  | [] => (None, sent)
  | text :: rest =>
      match stdout sent text with
      | Some e => (Some e, sent)
      | None => print_all (sent ++ [text]) rest
      end
  end.

(** The calls [prints], and then [k] when all of them returned. *)
Definition print_then (prints sent : list (list N))
    (k : list (list N) -> ending E * list (list N)) : ending E * list (list N) :=
  match print_all sent prints with
  | (Some e, sent) => (PrintRaises e, sent)
  | (None, sent) => k sent
  end.

(** [main], for the four addresses and clock readings the runtime gives the
    four tasks: how it ends and the arguments of the calls of [print] that
    returned. [display_tasks] does nothing but its calls of [print], so
    inside [main] it is these calls up to the first that raises. *)
Definition main (a1 a2 a3 a4 now1 now2 now3 now4 : Z) : ending E * list (list N) :=
  let manager := initial in
  match add_task a1 now1 "Complete project" "Finish the Python project" "high" manager with
  | (Raise e, _) => (Raises e, [])
  | (Return _, manager) =>
  match add_task a2 now2 "Review code" "Review pull requests" "medium" manager with
  | (Raise e, _) => (Raises e, [])
  | (Return _, manager) =>
  match add_task a3 now3 "Update docs" "Update documentation" "low" manager with
  | (Raise e, _) => (Raises e, [])
  | (Return _, manager) =>
  match add_task a4 now4 "Bug fix" "Fix critical bug in payment system" "high" manager with
  | (Raise e, _) => (Raises e, [])
  | (Return _, manager) =>
  print_then [code_points "All Tasks:"] [] (fun out =>
  print_then (display_tasks None manager) out (fun out =>
  print_then [code_points "High Priority Tasks:"] out (fun out =>
  match filter_by_priority "high" manager with
  | (Raise e, _) => (Raises e, out)
  | (Return high, manager) =>
  print_then (display_tasks (Some high) manager) out (fun out =>
  print_then [code_points "Search results for 'project':"] out (fun out =>
  match search_by_keyword "project" manager with
  | (Raise e, _) => (Raises e, out)
  | (Return found, manager) =>
  print_then (display_tasks (Some found) manager) out (fun out =>
  match list_all_tasks manager with
  | (Raise e, _) => (Raises e, out)
  | (Return all, manager) =>
  match all !! 0%nat with
  | None => (Raises (IndexError "list index out of range"), out)
  | Some first_task =>
  match mark_complete (py_id first_task) manager with
  | (Raise e, _) => (Raises e, out)
  | (Return _, manager) =>
  print_then [code_points "After marking first task as complete:"] out (fun out =>
  print_then (display_tasks None manager) out (fun out =>
  (Ends, out)))
  end end end) end)) end))) end end end end.

End Printing.

(** One line of [display_tasks]: the number, the mark and the rest of the
    text of a task. *)
Definition task_line (number : string) (mark : N) (rest : string) : list N :=
  code_points number ++ code_points ". [" ++ [mark] ++ code_points "] "
  ++ code_points rest.

(** The arguments of the calls of [print] of a run of [main] in which every
    call returns, in order. *)
Definition main_output : list (list N) :=
  [ code_points "All Tasks:";
    [LF] ++ border;
    task_line "1" white_circle
      "Complete project (Priority: high) - Finish the Python project";
    task_line "2" white_circle
      "Review code (Priority: medium) - Review pull requests";
    task_line "3" white_circle
      "Update docs (Priority: low) - Update documentation";
    task_line "4" white_circle
      "Bug fix (Priority: high) - Fix critical bug in payment system";
    border ++ [LF];
    code_points "High Priority Tasks:";
    [LF] ++ border;
    task_line "1" white_circle
      "Complete project (Priority: high) - Finish the Python project";
    task_line "2" white_circle
      "Bug fix (Priority: high) - Fix critical bug in payment system";
    border ++ [LF];
    code_points "Search results for 'project':";
    [LF] ++ border;
    task_line "1" white_circle
      "Complete project (Priority: high) - Finish the Python project";
    border ++ [LF];
    code_points "After marking first task as complete:";
    [LF] ++ border;
    task_line "1" check_mark
      "Complete project (Priority: high) - Finish the Python project";
    task_line "2" white_circle
      "Review code (Priority: medium) - Review pull requests";
    task_line "3" white_circle
      "Update docs (Priority: low) - Update documentation";
    task_line "4" white_circle
      "Bug fix (Priority: high) - Fix critical bug in payment system";
    border ++ [LF] ].

(** The code points below 256 that are capital letters with a small letter
    of their own: A-Z, U+00C0-U+00D6 and U+00D8-U+00DE. The small letter is
    32 further on. *)
Definition is_capital (n : nat) : bool :=
  (Nat.leb 65 n && Nat.leb n 90)
  || (Nat.leb 192 n && Nat.leb n 214)
  || (Nat.leb 216 n && Nat.leb n 222).

(** Decide a closed decidable proposition by evaluation. *)
Ltac by_evaluation := apply (bool_decide_unpack _); vm_compute; exact I.

(** ** Strings: the substring test *)

Lemma lower_empty : Str.lower "" = "".
Proof. reflexivity. Qed.

Lemma append_cons (c : ascii) (s t : string) :
  String c s +:+ t = String c (s +:+ t).
Proof. reflexivity. Qed.

Lemma append_nil (s : string) : "" +:+ s = s.
Proof. reflexivity. Qed.

Lemma startswith_spec (p s : string) :
  Str.startswith p s = true <-> exists after : string, s = p +:+ after.
Proof.
  revert s. induction p as [|a p IH]; intros s; simpl.
  - split; [intros _; by exists s | done].
  - destruct s as [|b s].
    + split; [done | intros [after H]; discriminate H].
    + destruct (Ascii.eqb_spec a b) as [->|Hab].
      * rewrite IH. split; intros [after H]; exists after;
          rewrite append_cons in *; congruence.
      * split; [done | intros [after H]; rewrite append_cons in H; congruence].
Qed.

Lemma contains_spec (sub s : string) :
  Str.contains sub s = true <-> Str.substring_of sub s.
Proof.
  unfold Str.substring_of.
  induction s as [|c s IH]; simpl; rewrite orb_true_iff, startswith_spec.
  - split.
    + intros [[after H]|H]; [|done]. by exists "", after.
    + intros ([|b before] & after & H); [left; by exists after | discriminate H].
  - rewrite IH. split.
    + intros [[after H]|(before & after & H)].
      * by exists "", after.
      * exists (String c before), after. by rewrite append_cons, H.
    + intros ([|b before] & after & H).
      * left. by exists after.
      * right. exists before, after. rewrite append_cons in H. congruence.
Qed.

Lemma contains_empty (s : string) : Str.contains "" s = true.
Proof. apply contains_spec. by exists "", s. Qed.

(** ** The loops *)

Lemma pop_middle (l1 l2 : list Z) (a : Z) :
  pop (length l1) (l1 ++ a :: l2) = Return (l1 ++ l2).
Proof.
  unfold pop. rewrite length_app. simpl.
  destruct (Nat.ltb_spec (length l1) (length l1 + S (length l2))) as [_|H]; [|lia].
  f_equal. induction l1 as [|x l1 IH]; simpl; [done | by rewrite IH].
Qed.

Lemma mark_complete_loop_absent (task_id : Z) (l : list Z) (w : world) :
  task_id ∉ l -> mark_complete_loop task_id l w = (Return false, w).
Proof.
  induction l as [|task rest IH]; intros Hnot; simpl; [done|].
  apply not_elem_of_cons in Hnot as [Hne Hrest]. unfold py_id.
  destruct (decide (task = task_id)) as [->|_]; [done | by apply IH].
Qed.

Lemma mark_complete_loop_present (task_id : Z) (l : list Z) (w : world) :
  task_id ∈ l ->
  mark_complete_loop task_id l w
  = (Return true,
     {| heap := alter Task.mark_complete task_id (heap w); tasks := tasks w |}).
Proof.
  induction l as [|task rest IH]; intros Hin; simpl.
  - by apply elem_of_nil in Hin.
  - unfold py_id. destruct (decide (task = task_id)) as [->|Hne]; [done|].
    apply IH. apply elem_of_cons in Hin as [->|Hin]; done.
Qed.

Lemma delete_task_loop_absent (task_id : Z) (k : nat) (l : list Z) (w : world) :
  task_id ∉ l ->
  delete_task_loop task_id (enumerate_from k l) w = (Return false, w).
Proof.
  revert k. induction l as [|task rest IH]; intros k Hnot; simpl; [done|].
  apply not_elem_of_cons in Hnot as [Hne Hrest]. unfold py_id.
  destruct (decide (task = task_id)) as [->|_]; [done | by apply IH].
Qed.

Lemma delete_task_loop_present (task_id : Z) (pre l : list Z) (w : world) :
  tasks w = pre ++ l ->
  task_id ∈ l ->
  exists l1 l2,
    l = l1 ++ task_id :: l2 /\ (task_id ∉ l1) /\
    delete_task_loop task_id (enumerate_from (length pre) l) w
    = (Return true, {| heap := heap w; tasks := pre ++ l1 ++ l2 |}).
Proof.
  revert pre. induction l as [|task rest IH]; intros pre Hw Hin; simpl.
  - by apply elem_of_nil in Hin.
  - unfold py_id. destruct (decide (task = task_id)) as [->|Hne].
    + exists [], rest. split; [done|]. split; [apply not_elem_of_nil|].
      by rewrite Hw, pop_middle.
    + apply elem_of_cons in Hin as [->|Hin]; [done|].
      destruct (IH (pre ++ [task])) as (l1 & l2 & -> & Hl1 & Heq).
      * by rewrite <- app_assoc.
      * done.
      * exists (task :: l1), l2. split; [done|]. split.
        { apply not_elem_of_cons. split; [congruence | done]. }
        rewrite length_app in Heq. simpl in Heq.
        replace (length pre + 1) with (S (length pre)) in Heq by lia.
        rewrite Heq. by rewrite <- app_assoc.
Qed.

Lemma delete_task_absent (task_id : Z) (w : world) :
  task_id ∉ tasks w -> delete_task task_id w = (Return false, w).
Proof. apply delete_task_loop_absent. Qed.

Lemma delete_task_present (task_id : Z) (w : world) :
  task_id ∈ tasks w ->
  exists l1 l2,
    tasks w = l1 ++ task_id :: l2 /\ (task_id ∉ l1) /\
    delete_task task_id w = (Return true, {| heap := heap w; tasks := l1 ++ l2 |}).
Proof. intros Hin. by apply (delete_task_loop_present task_id [] (tasks w) w). Qed.

(** ** The invariant of the runs *)

Lemma add_task_raise (a now : Z) (title description priority : string) (w : world) :
  Str.lower priority ∉ valid_priorities ->
  add_task a now title description priority w
  = (Raise (ValueError "Priority must be 'high', 'medium', or 'low'"), w).
Proof. intros H. unfold add_task. by rewrite decide_True. Qed.

Lemma add_task_return (a now : Z) (title description priority : string) (w : world) :
  Str.lower priority ∈ valid_priorities ->
  add_task a now title description priority w
  = (Return a,
     {| heap := <[a := Task.init a now title description priority]> (heap w);
        tasks := tasks w ++ [a] |}).
Proof. intros H. unfold add_task. rewrite decide_False; [done | by intros Hn]. Qed.

Lemma wf_initial : wf initial.
Proof.
  split; simpl.
  - intros a H. by apply elem_of_nil in H.
  - intros a t H. by rewrite lookup_empty in H.
  - constructor.
  - intros a t H. by apply elem_of_nil in H.
Qed.

Lemma wf_add_task (a now : Z) (title description priority : string) (w : world) :
  wf w -> heap w !! a = None ->
  wf (snd (add_task a now title description priority w)).
Proof.
  intros [Hlive Hid Hnd Hprio] Hfresh.
  destruct (decide (Str.lower priority ∈ valid_priorities)) as [Hv|Hv].
  2: { rewrite add_task_raise by done. by split. }
  rewrite add_task_return by done. simpl.
  assert (Hnew : a ∉ tasks w).
  { intros Hin. destruct (Hlive a Hin) as [t Ht]. congruence. }
  split; simpl.
  - intros b Hb. rewrite lookup_insert. case_decide; [by eexists|].
    apply Hlive. apply elem_of_app in Hb as [Hb|Hb]; [done|].
    apply list_elem_of_singleton in Hb. congruence.
  - intros b t. rewrite lookup_insert. case_decide.
    + intros [= <-]. by subst.
    + apply Hid.
  - apply NoDup_app. split; [done|]. split; [|apply NoDup_singleton].
    intros b Hb Hb'. apply list_elem_of_singleton in Hb'. by subst.
  - intros b t Hb. rewrite lookup_insert. case_decide.
    + intros [= <-]. done.
    + intros Ht. apply (Hprio b); [|done].
      apply elem_of_app in Hb as [Hb|Hb]; [done|].
      apply list_elem_of_singleton in Hb. congruence.
Qed.

Lemma lookup_alter_mark_complete (h : gmap Z Task.t) (a b : Z) :
  alter Task.mark_complete a h !! b
  = if decide (a = b) then Task.mark_complete <$> h !! b else h !! b.
Proof. rewrite lookup_alter. by case_decide; subst. Qed.

Lemma heap_mark_complete (task_id : Z) (w : world) :
  snd (mark_complete task_id w) = w \/
  snd (mark_complete task_id w)
  = {| heap := alter Task.mark_complete task_id (heap w); tasks := tasks w |}.
Proof.
  unfold mark_complete. destruct (decide (task_id ∈ tasks w)) as [Hin|Hnot].
  - right. by rewrite mark_complete_loop_present.
  - left. by rewrite mark_complete_loop_absent.
Qed.

Lemma wf_alter (task_id : Z) (w : world) :
  wf w ->
  wf {| heap := alter Task.mark_complete task_id (heap w); tasks := tasks w |}.
Proof.
  intros [Hlive Hid Hnd Hprio]. split; simpl; [| | done |].
  - intros b Hb. rewrite lookup_alter_mark_complete.
    destruct (Hlive b Hb) as [t Ht]. rewrite Ht. case_decide; by eexists.
  - intros b t. rewrite lookup_alter_mark_complete. case_decide; [|apply Hid].
    destruct (heap w !! b) as [t0|] eqn:Hb; [|done].
    intros [= <-]. simpl. by apply Hid.
  - intros b t Hb. rewrite lookup_alter_mark_complete. case_decide; [|by apply Hprio].
    destruct (heap w !! b) as [t0|] eqn:Ht0; [|done].
    intros [= <-]. simpl. by apply (Hprio b).
Qed.

Lemma wf_mark_complete (task_id : Z) (w : world) :
  wf w -> wf (snd (mark_complete task_id w)).
Proof.
  intros Hwf. destruct (heap_mark_complete task_id w) as [-> | ->];
    [done | by apply wf_alter].
Qed.

Lemma wf_delete_task (task_id : Z) (w : world) :
  wf w -> wf (snd (delete_task task_id w)).
Proof.
  intros Hwf. destruct (decide (task_id ∈ tasks w)) as [Hin|Hnot].
  2: { by rewrite delete_task_absent. }
  destruct (delete_task_present task_id w Hin) as (l1 & l2 & Hw & Hl1 & ->).
  destruct Hwf as [Hlive Hid Hnd Hprio]. simpl.
  assert (Hsub : forall b, b ∈ l1 ++ l2 -> b ∈ tasks w).
  { intros b Hb. rewrite Hw. apply elem_of_app in Hb as [Hb|Hb];
      apply elem_of_app; [by left | right; by apply elem_of_cons; right]. }
  split; simpl; [by auto | done | | by eauto].
  rewrite Hw in Hnd. apply NoDup_app in Hnd as (H1 & H12 & H2).
  apply NoDup_cons in H2 as [_ H2].
  apply NoDup_app. split; [done|]. split; [|done].
  intros b Hb Hb'. apply (H12 b Hb). by apply elem_of_cons; right.
Qed.

Lemma wf_step (w w' : world) : wf w -> step w w' -> wf w'.
Proof.
  intros Hwf Hstep. destruct Hstep as [a now ti de pr w Hf|i w|i w|a now ti de pr w Hf|a w Hnot].
  - by apply wf_add_task.
  - by apply wf_mark_complete.
  - by apply wf_delete_task.
  - destruct Hwf as [Hlive Hid Hnd Hprio].
    assert (Hnew : a ∉ tasks w).
    { intros Hin. destruct (Hlive a Hin) as [t Ht]. congruence. }
    split; simpl; [| | done |].
    + intros b Hb. rewrite lookup_insert_ne; [by apply Hlive | congruence].
    + intros b t. rewrite lookup_insert. case_decide; [|apply Hid].
      intros [= <-]. by subst.
    + intros b t Hb. rewrite lookup_insert_ne; [by apply Hprio | congruence].
  - destruct Hwf as [Hlive Hid Hnd Hprio]. split; simpl; [| | done |].
    + intros b Hb. rewrite lookup_delete_ne; [by apply Hlive | congruence].
    + intros b t Hb. apply lookup_delete_Some in Hb as [_ Hb]. by apply Hid.
    + intros b t Hb Ht. apply lookup_delete_Some in Ht as [_ Ht]. by apply (Hprio b).
Qed.

Lemma reachable_wf (w : world) : reachable w -> wf w.
Proof.
  unfold reachable. intros H. apply rtc_ind_r with (x := initial) (P := wf) in H;
    [done | apply wf_initial | intros; by eapply wf_step].
Qed.

Lemma reachable_add_task (a now : Z) (title description priority : string) (w : world) :
  reachable w -> heap w !! a = None ->
  reachable (snd (add_task a now title description priority w)).
Proof. intros H Hf. eapply rtc_r; [exact H | by constructor]. Qed.

Lemma reachable_mark_complete (task_id : Z) (w : world) :
  reachable w -> reachable (snd (mark_complete task_id w)).
Proof. intros H. eapply rtc_r; [exact H | constructor]. Qed.

Lemma reachable_delete_task (task_id : Z) (w : world) :
  reachable w -> reachable (snd (delete_task task_id w)).
Proof. intros H. eapply rtc_r; [exact H | constructor]. Qed.

Lemma reachable_initial : reachable initial.
Proof. apply rtc_refl. Qed.

Lemma reachable_main_world : reachable main_world.
Proof.
  unfold main_world.
  repeat (apply reachable_add_task; [|vm_compute; reflexivity]).
  apply reachable_initial.
Qed.

(** ** The properties of the operations *)

(** C2: for every priority whose lowercase form is none of high, medium and
    low, [add_task] raises the [ValueError] of an invalid priority and the
    world is the one before the call: no task is built or appended and the
    number of tasks is the same. *)
Theorem add_task_invalid_priority
    (a now : Z) (title description priority : string) (w : world) :
  Str.lower priority ∉ valid_priorities ->
  exists w',
    add_task a now title description priority w
    = (Raise (ValueError "Priority must be 'high', 'medium', or 'low'"), w') /\
    w' = w /\
    heap w' = heap w /\
    tasks w' = tasks w /\
    length (tasks w') = length (tasks w).
Proof.
  intros Hbad. exists w. by rewrite add_task_raise.
Qed.

Lemma add_task_invalid_priority_witness :
  (Str.lower "Urgent" ∉ valid_priorities) /\
  exists w',
    add_task 4352 5 "Call" "Call the bank" "Urgent" main_world
    = (Raise (ValueError "Priority must be 'high', 'medium', or 'low'"), w') /\
    w' = main_world /\
    heap w' = heap main_world /\
    tasks w' = tasks main_world /\
    length (tasks w') = length (tasks main_world).
Proof.
  split.
  - by_evaluation.
  - apply (add_task_invalid_priority 4352 5 "Call" "Call the bank" "Urgent" main_world).
    by_evaluation.
Defined.

(** C3: for every priority whose lowercase form is high, medium or low,
    whatever its casing, [add_task] returns a task, and the priority of the
    task it stored is the lowercase form of the argument. *)
Theorem add_task_valid_priority
    (a now : Z) (title description priority : string) (w : world) :
  Str.lower priority ∈ valid_priorities ->
  exists w',
    add_task a now title description priority w = (Return a, w') /\
    a ∈ tasks w' /\
    Task.priority <$> heap w' !! a = Some (Str.lower priority).
Proof.
  intros Hok. eexists. split; [by apply add_task_return|]. simpl. split.
  - apply elem_of_app. right. apply list_elem_of_singleton. done.
  - by rewrite lookup_insert_eq.
Qed.

Lemma add_task_valid_priority_witness :
  Str.lower "MeDiuM" ∈ valid_priorities /\
  exists w',
    add_task 4352 5 "Call" "Call the bank" "MeDiuM" main_world = (Return 4352%Z, w') /\
    4352%Z ∈ tasks w' /\
    Task.priority <$> heap w' !! 4352%Z = Some (Str.lower "MeDiuM").
Proof.
  split.
  - by_evaluation.
  - apply (add_task_valid_priority 4352 5 "Call" "Call the bank" "MeDiuM" main_world).
    by_evaluation.
Defined.

(** C4: when [add_task] returns task [r], [list_all_tasks] afterwards is one
    longer than before, its last element is [r], the task just built, and
    the tasks held before are its first elements, in the order they had. *)
Theorem add_task_appends
    (a now : Z) (title description priority : string) (w w' : world) (r : Z) :
  add_task a now title description priority w = (Return r, w') ->
  exists before after : list Z,
    list_all_tasks w = (Return before, w) /\
    list_all_tasks w' = (Return after, w') /\
    length after = S (length before) /\
    last after = Some r /\
    after = before ++ [r] /\
    take (length before) after = before /\
    r = a /\
    heap w' !! r = Some (Task.init a now title description priority).
Proof.
  unfold add_task. case_decide as Hp; [done|]. intros [= <- <-].
  exists (tasks w), (tasks w ++ [a]). simpl.
  rewrite length_app, last_snoc, take_app_length, lookup_insert_eq. simpl.
  repeat split; try done. lia.
Qed.

Lemma add_task_appends_witness :
  exists w',
    add_task 4352 5 "Call" "Call the bank" "low" main_world = (Return 4352%Z, w') /\
    exists before after : list Z,
      list_all_tasks main_world = (Return before, main_world) /\
      list_all_tasks w' = (Return after, w') /\
      length after = S (length before) /\
      last after = Some 4352%Z /\
      after = before ++ [4352%Z] /\
      take (length before) after = before /\
      4352%Z = 4352%Z /\
      heap w' !! 4352%Z = Some (Task.init 4352 5 "Call" "Call the bank" "low").
Proof.
  eexists. split; [reflexivity|].
  apply (add_task_appends 4352 5 "Call" "Call the bank" "low" main_world).
  reflexivity.
Defined.

(** C6: for every id that is the id of no task the store holds,
    [mark_complete] and [delete_task] each return [False], without raising,
    and leave the world as it was: the same tasks in the same order, with
    the same fields. *)
Theorem unknown_id_returns_false (task_id : Z) (w : world) :
  (forall task, task ∈ tasks w -> py_id task <> task_id) ->
  mark_complete task_id w = (Return false, w) /\
  delete_task task_id w = (Return false, w).
Proof.
  intros Hno.
  assert (Hnot : task_id ∉ tasks w) by (intros Hin; by apply (Hno task_id)).
  split; [by apply mark_complete_loop_absent | by apply delete_task_absent].
Qed.

Lemma unknown_id_returns_false_witness :
  (forall task, task ∈ tasks main_world -> py_id task <> 5000%Z) /\
  mark_complete 5000 main_world = (Return false, main_world) /\
  delete_task 5000 main_world = (Return false, main_world).
Proof.
  assert (H : forall task, task ∈ tasks main_world -> py_id task <> 5000%Z).
  { assert (Hnot : 5000%Z ∉ tasks main_world) by by_evaluation.
    intros task Hin Heq. unfold py_id in Heq. by subst task. }
  split; [exact H | exact (unknown_id_returns_false 5000 main_world H)].
Defined.

Lemma alter_mark_complete_twice (h : gmap Z Task.t) (a : Z) :
  alter Task.mark_complete a (alter Task.mark_complete a h)
  = alter Task.mark_complete a h.
Proof.
  apply map_eq. intros b. rewrite !lookup_alter_mark_complete.
  case_decide; [|done]. by destruct (h !! b).
Qed.

Lemma step_keeps_completed (w w' : world) (b : Z) (t t' : Task.t) :
  step w w' ->
  heap w !! b = Some t -> Task.completed t = true ->
  heap w' !! b = Some t' -> Task.completed t' = true.
Proof.
  intros Hstep Hb Hdone.
  destruct Hstep as [a now ti de pr w Hf|i w|i w|a now ti de pr w Hf|a w Hnot].
  - unfold add_task. case_decide; simpl; [congruence|].
    rewrite lookup_insert_ne by congruence. congruence.
  - destruct (heap_mark_complete i w) as [-> | ->]; simpl; [congruence|].
    rewrite lookup_alter_mark_complete, Hb.
    case_decide; simpl; [by intros [= <-] | congruence].
  - destruct (decide (i ∈ tasks w)) as [Hin|Hnot].
    + destruct (delete_task_present i w Hin) as (l1 & l2 & _ & _ & ->).
      simpl. congruence.
    + rewrite delete_task_absent by done. simpl. congruence.
  - simpl. rewrite lookup_insert_ne by congruence. congruence.
  - simpl. intros Hb'. apply lookup_delete_Some in Hb' as [_ Hb']. congruence.
Qed.

(** C5: for every task [t] the store holds, [mark_complete] with the id of
    [t] returns [True] and leaves [t] completed, its other fields and every
    other object as they were; a second call with the same id returns
    [True] again and changes nothing, so [t] stays completed; and no step
    of a run takes the completed flag of an object from true back to
    false. *)
Theorem mark_complete_idempotent (w : world) (a : Z) (t : Task.t) :
  reachable w ->
  a ∈ tasks w ->
  heap w !! a = Some t ->
  (exists w1,
     mark_complete (Task.id t) w = (Return true, w1) /\
     heap w1 !! a = Some (Task.mark_complete t) /\
     Task.completed <$> heap w1 !! a = Some true /\
     (forall b, b <> a -> heap w1 !! b = heap w !! b) /\
     tasks w1 = tasks w /\
     mark_complete (Task.id t) w1 = (Return true, w1)) /\
  (forall w' b u u',
     step w w' ->
     heap w !! b = Some u -> Task.completed u = true ->
     heap w' !! b = Some u' -> Task.completed u' = true).
Proof.
  intros Hreach Hin Ht. apply reachable_wf in Hreach as Hwf.
  split; [|intros w' b u u'; apply step_keeps_completed].
  rewrite (wf_id w Hwf a t Ht). unfold mark_complete.
  eexists. split; [by apply mark_complete_loop_present|]. simpl.
  rewrite lookup_alter_mark_complete, decide_True, Ht by done.
  split; [done|]. split; [done|]. split.
  - intros b Hb. rewrite lookup_alter_mark_complete. by rewrite decide_False.
  - split; [done|]. rewrite mark_complete_loop_present by done. simpl.
    by rewrite alter_mark_complete_twice.
Qed.

Lemma mark_complete_idempotent_witness :
  reachable main_world /\
  4096%Z ∈ tasks main_world /\
  heap main_world !! 4096%Z
  = Some (Task.init 4096 1 "Complete project" "Finish the Python project" "high") /\
  (exists w1,
     mark_complete 4096 main_world = (Return true, w1) /\
     heap w1 !! 4096%Z
     = Some (Task.mark_complete
               (Task.init 4096 1 "Complete project" "Finish the Python project" "high")) /\
     Task.completed <$> heap w1 !! 4096%Z = Some true /\
     (forall b, b <> 4096%Z -> heap w1 !! b = heap main_world !! b) /\
     tasks w1 = tasks main_world /\
     mark_complete 4096 w1 = (Return true, w1)) /\
  (forall w' b u u',
     step main_world w' ->
     heap main_world !! b = Some u -> Task.completed u = true ->
     heap w' !! b = Some u' -> Task.completed u' = true).
Proof.
  assert (Hin : 4096%Z ∈ tasks main_world) by by_evaluation.
  assert (Ht : heap main_world !! 4096%Z
               = Some (Task.init 4096 1 "Complete project"
                                 "Finish the Python project" "high"))
    by (vm_compute; reflexivity).
  split; [exact reachable_main_world|]. split; [exact Hin|]. split; [exact Ht|].
  exact (mark_complete_idempotent main_world 4096 _ reachable_main_world Hin Ht).
Defined.

(** C7: for every task [t] the store holds, [delete_task] with the id of
    [t] returns [True]; the list of tasks afterwards is the one before
    without its first (and only) reference to [t]: the tasks before [t] and
    the tasks after [t] are all still there, in the order they had, [t] is
    no longer held, and the list is shorter by exactly one. *)
Theorem delete_task_removes (w : world) (a : Z) (t : Task.t) :
  reachable w ->
  a ∈ tasks w ->
  heap w !! a = Some t ->
  exists (l1 l2 : list Z) (w' : world),
    delete_task (Task.id t) w = (Return true, w') /\
    tasks w = l1 ++ a :: l2 /\
    (a ∉ l1) /\
    tasks w' = l1 ++ l2 /\
    (a ∉ tasks w') /\
    (forall b, b <> a -> (b ∈ tasks w' <-> b ∈ tasks w)) /\
    S (length (tasks w')) = length (tasks w) /\
    heap w' = heap w.
Proof.
  intros Hreach Hin Ht. apply reachable_wf in Hreach as Hwf.
  rewrite (wf_id w Hwf a t Ht).
  destruct (delete_task_present a w Hin) as (l1 & l2 & Hw & Hl1 & Hdel).
  exists l1, l2. eexists. split; [exact Hdel|]. simpl.
  pose proof (wf_nodup w Hwf) as Hnd. rewrite Hw in Hnd.
  apply NoDup_app in Hnd as (_ & H12 & H2). apply NoDup_cons in H2 as [Hl2 _].
  repeat split; try done.
  - intros Ha. apply elem_of_app in Ha as [Ha|Ha]; done.
  - intros Hb. rewrite Hw. apply elem_of_app in Hb as [Hb|Hb]; apply elem_of_app;
      [by left | right; by apply elem_of_cons; right].
  - rewrite Hw. intros Hb. apply elem_of_app in Hb as [Hb|Hb]; apply elem_of_app;
      [by left|]. apply elem_of_cons in Hb as [->|Hb]; [done | by right].
  - rewrite Hw, !length_app. simpl. lia.
Qed.

Lemma delete_task_removes_witness :
  reachable main_world /\
  4160%Z ∈ tasks main_world /\
  heap main_world !! 4160%Z
  = Some (Task.init 4160 2 "Review code" "Review pull requests" "medium") /\
  exists (l1 l2 : list Z) (w' : world),
    delete_task 4160 main_world = (Return true, w') /\
    tasks main_world = l1 ++ 4160%Z :: l2 /\
    (4160%Z ∉ l1) /\
    tasks w' = l1 ++ l2 /\
    (4160%Z ∉ tasks w') /\
    (forall b, b <> 4160%Z -> (b ∈ tasks w' <-> b ∈ tasks main_world)) /\
    S (length (tasks w')) = length (tasks main_world) /\
    heap w' = heap main_world.
Proof.
  assert (Hin : 4160%Z ∈ tasks main_world) by by_evaluation.
  assert (Ht : heap main_world !! 4160%Z
               = Some (Task.init 4160 2 "Review code" "Review pull requests" "medium"))
    by (vm_compute; reflexivity).
  split; [exact reachable_main_world|]. split; [exact Hin|]. split; [exact Ht|].
  exact (delete_task_removes main_world 4160 _ reachable_main_world Hin Ht).
Defined.

Lemma filter_all {A : Type} (P : A -> Prop) `{!forall x, Decision (P x)} (l : list A) :
  (forall x, x ∈ l -> P x) -> filter P l = l.
Proof.
  induction l as [|x l IH]; intros Hall; [done|].
  rewrite filter_cons_True by (apply Hall; apply elem_of_cons; by left).
  f_equal. apply IH. intros y Hy. apply Hall. apply elem_of_cons. by right.
Qed.

Lemma has_priority_iff (w : world) (p : string) (a : Z) :
  has_priority w p a <-> exists t, heap w !! a = Some t /\ Task.priority t = p.
Proof.
  unfold has_priority. destruct (heap w !! a) as [t|]; simpl.
  - split; [intros [= H]; by exists t | intros (t' & [= <-] & ->); done].
  - split; [done | intros (t' & H & _); done].
Qed.

Lemma matches_iff (w : world) (k : string) (a : Z) :
  matches w k a <->
  exists t, heap w !! a = Some t /\
    (Str.substring_of k (Str.lower (Task.title t)) \/
     Str.substring_of k (Str.lower (Task.description t))).
Proof.
  unfold matches, keyword_in. destruct (heap w !! a) as [t|]; simpl.
  - split.
    + intros [= H]. exists t. split; [done|].
      apply orb_true_iff in H. by rewrite <- !contains_spec.
    + intros (t' & [= <-] & H). rewrite <- !contains_spec in H.
      apply orb_true_iff in H. by rewrite H.
  - split; [done | intros (t' & H & _); done].
Qed.

(** C8: for every priority string, [filter_by_priority] returns, without
    raising and without changing the world, the tasks of the store whose
    stored priority is the lowercase form of the argument, each once and in
    the order of the store; for an argument whose lowercase form is none of
    high, medium and low the result is empty. *)
Theorem filter_by_priority_exact (w : world) (priority : string) :
  reachable w ->
  exists l : list Z,
    filter_by_priority priority w = (Return l, w) /\
    (forall a, a ∈ l <->
       a ∈ tasks w /\
       exists t, heap w !! a = Some t /\ Task.priority t = Str.lower priority) /\
    l `sublist_of` tasks w /\
    NoDup l /\
    (Str.lower priority ∉ valid_priorities -> l = []).
Proof.
  intros Hreach. apply reachable_wf in Hreach as Hwf.
  eexists. split; [reflexivity|].
  assert (Hmem : forall a,
    a ∈ filter (has_priority w (Str.lower priority)) (tasks w) <->
    a ∈ tasks w /\
    exists t, heap w !! a = Some t /\ Task.priority t = Str.lower priority).
  { intros a. rewrite list_elem_of_filter, has_priority_iff. tauto. }
  split; [exact Hmem|]. split; [apply sublist_filter|].
  split; [apply NoDup_filter, (wf_nodup w Hwf)|].
  intros Hbad.
  destruct (filter (has_priority w (Str.lower priority)) (tasks w)) as [|a l] eqn:E;
    [done|].
  exfalso. destruct (proj1 (Hmem a)) as (Ha & t & Ht & Hp).
  { apply elem_of_cons. by left. }
  apply Hbad. rewrite <- Hp. by apply (wf_priority w Hwf a).
Qed.

Lemma filter_by_priority_exact_witness :
  reachable main_world /\
  filter_by_priority "HIGH" main_world = (Return [4096%Z; 4288%Z], main_world) /\
  exists l : list Z,
    filter_by_priority "Urgent" main_world = (Return l, main_world) /\
    (forall a, a ∈ l <->
       a ∈ tasks main_world /\
       exists t, heap main_world !! a = Some t /\ Task.priority t = Str.lower "Urgent") /\
    l `sublist_of` tasks main_world /\
    NoDup l /\
    (Str.lower "Urgent" ∉ valid_priorities -> l = []).
Proof.
  split; [exact reachable_main_world|]. split; [vm_compute; reflexivity|].
  exact (filter_by_priority_exact main_world "Urgent" reachable_main_world).
Defined.

(** X17: for every keyword, [search_by_keyword] returns, without raising and
    without changing the world, the tasks of the store in whose lowercased
    title or lowercased description the lowercased keyword occurs as a
    substring, each once and in the order of the store; for the empty
    keyword these are all the tasks of the store. *)
Theorem search_by_keyword_exact (w : world) (keyword : string) :
  reachable w ->
  exists l : list Z,
    search_by_keyword keyword w = (Return l, w) /\
    (forall a, a ∈ l <->
       a ∈ tasks w /\
       exists t, heap w !! a = Some t /\
         (Str.substring_of (Str.lower keyword) (Str.lower (Task.title t)) \/
          Str.substring_of (Str.lower keyword) (Str.lower (Task.description t)))) /\
    l `sublist_of` tasks w /\
    NoDup l /\
    (keyword = "" -> l = tasks w).
Proof.
  intros Hreach. apply reachable_wf in Hreach as Hwf.
  eexists. split; [reflexivity|].
  split; [intros a; rewrite list_elem_of_filter, matches_iff; tauto|].
  split; [apply sublist_filter|].
  split; [apply NoDup_filter, (wf_nodup w Hwf)|].
  intros ->. apply filter_all. intros a Ha.
  destruct (wf_live w Hwf a Ha) as [t Ht].
  unfold matches, keyword_in. rewrite Ht. simpl. by rewrite contains_empty.
Qed.

Lemma search_by_keyword_exact_witness :
  reachable main_world /\
  search_by_keyword "PROJECT" main_world = (Return [4096%Z], main_world) /\
  exists l : list Z,
    search_by_keyword "" main_world = (Return l, main_world) /\
    (forall a, a ∈ l <->
       a ∈ tasks main_world /\
       exists t, heap main_world !! a = Some t /\
         (Str.substring_of (Str.lower "") (Str.lower (Task.title t)) \/
          Str.substring_of (Str.lower "") (Str.lower (Task.description t)))) /\
    l `sublist_of` tasks main_world /\
    NoDup l /\
    ("" = "" -> l = tasks main_world).
Proof.
  split; [exact reachable_main_world|]. split; [vm_compute; reflexivity|].
  exact (search_by_keyword_exact main_world "" reachable_main_world).
Defined.

Lemma lower_char_code (c : ascii) :
  nat_of_ascii (Str.lower_char c)
  = if is_capital (nat_of_ascii c) then nat_of_ascii c + 32 else nat_of_ascii c.
Proof. destruct c as [[] [] [] [] [] [] [] []]; vm_compute; reflexivity. Qed.

Lemma lower_get (s : string) (i : nat) :
  String.get i (Str.lower s) = option_map Str.lower_char (String.get i s).
Proof.
  revert i. induction s as [|c s IH]; intros i; [done|].
  destruct i as [|i]; simpl; [done | apply IH].
Qed.

Lemma lower_length (s : string) : String.length (Str.lower s) = String.length s.
Proof. induction s as [|c s IH]; simpl; [done | by rewrite IH]. Qed.

(** C10: the constructor of [Task] has no failing path: for every title,
    description and priority it returns a task whose completed flag is
    false and whose priority is the lowercase form of the argument, valid
    or not: as long as the argument, with a small letter where the argument
    has a capital and the character of the argument everywhere else. So
    ["URGENT"] is stored as ["urgent"], none of high, medium and low, and
    ["MeDiUm"] as ["medium"]. The check of the priority is in [add_task]
    alone: for ["URGENT"] it raises, and a task that [add_task] returns has
    a priority that is one of the three. *)
Theorem Task_init_unvalidated :
  (forall (self now : Z) (title description priority : string),
     Task.priority (Task.init self now title description priority)
     = Str.lower priority /\
     String.length (Task.priority (Task.init self now title description priority))
     = String.length priority /\
     (forall (i : nat) (c : ascii),
        String.get i priority = Some c ->
        option_map nat_of_ascii
          (String.get i (Task.priority (Task.init self now title description priority)))
        = Some (if is_capital (nat_of_ascii c)
                then nat_of_ascii c + 32 else nat_of_ascii c)) /\
     Task.completed (Task.init self now title description priority) = false /\
     Task.id (Task.init self now title description priority) = self /\
     Task.title (Task.init self now title description priority) = title /\
     Task.description (Task.init self now title description priority)
     = description) /\
  (forall (self now : Z) (title description : string) (w : world),
     Task.priority (Task.init self now title description "URGENT") = "urgent" /\
     Task.priority (Task.init self now title description "MeDiUm") = "medium" /\
     ("urgent" ∉ valid_priorities) /\
     add_task self now title description "URGENT" w
     = (Raise (ValueError "Priority must be 'high', 'medium', or 'low'"), w)) /\
  (forall (self now : Z) (title description priority : string)
          (w w' : world) (r : Z),
     add_task self now title description priority w = (Return r, w') ->
     exists t, heap w' !! r = Some t /\ Task.priority t ∈ valid_priorities).
Proof.
  split; [|split].
  - intros self now title description priority. simpl.
    split; [done|]. split; [apply lower_length|]. split; [|done].
    intros i c Hc. rewrite lower_get, Hc. simpl. by rewrite lower_char_code.
  - intros self now title description w.
    assert (Hbad : Str.lower "URGENT" ∉ valid_priorities) by by_evaluation.
    split; [reflexivity|]. split; [reflexivity|].
    split; [exact Hbad | by apply add_task_raise].
  - intros self now title description priority w w' r.
    unfold add_task. case_decide as Hp; [done|]. intros [= <- <-]. simpl.
    eexists. rewrite lookup_insert_eq. split; [done|]. simpl.
    by destruct (decide (Str.lower priority ∈ valid_priorities)).
Qed.

(** ** The ids of the tasks *)

(** The id of a task the store holds is the address of its object, so the
    tasks held at one time have different ids. *)
Lemma held_ids_unique (w : world) :
  reachable w -> held_ids w = tasks w /\ NoDup (held_ids w).
Proof.
  intros Hreach. apply reachable_wf in Hreach as Hwf.
  assert (Heq : held_ids w = tasks w).
  { unfold held_ids. pose proof (wf_live w Hwf) as Hlive.
    induction (tasks w) as [|a l IH]; [done|]. simpl.
    destruct (Hlive a) as [t Ht]; [apply elem_of_cons; by left|].
    rewrite Ht. simpl. rewrite (wf_id w Hwf a t Ht). f_equal.
    apply IH. intros b Hb. apply Hlive. apply elem_of_cons. by right. }
  split; [done|]. rewrite Heq. apply (wf_nodup w Hwf).
Qed.

(** No step changes the id of an object that is live before and after. *)
Lemma step_keeps_id (w w' : world) (b : Z) (t t' : Task.t) :
  step w w' ->
  heap w !! b = Some t -> heap w' !! b = Some t' -> Task.id t' = Task.id t.
Proof.
  intros Hstep Hb.
  destruct Hstep as [a now ti de pr w Hf|i w|i w|a now ti de pr w Hf|a w Hnot].
  - unfold add_task. case_decide; simpl; [congruence|].
    rewrite lookup_insert_ne by congruence. congruence.
  - destruct (heap_mark_complete i w) as [-> | ->]; simpl; [congruence|].
    rewrite lookup_alter_mark_complete, Hb.
    case_decide; simpl; [by intros [= <-] | congruence].
  - destruct (decide (i ∈ tasks w)) as [Hin|Hnot].
    + destruct (delete_task_present i w Hin) as (l1 & l2 & _ & _ & ->).
      simpl. congruence.
    + rewrite delete_task_absent by done. simpl. congruence.
  - simpl. rewrite lookup_insert_ne by congruence. congruence.
  - simpl. intros Hb'. apply lookup_delete_Some in Hb' as [_ Hb']. congruence.
Qed.

(** C1: the id of a task is not kept from later tasks of the same store.
    In the run below every step is one the program and the runtime can
    take: the task "Old" is added and gets id 4096, it is deleted, its
    object is freed, and the task "New", built at the address that became
    free, gets id 4096 as well, the id of a task the store held before. *)
Theorem id_reused_after_delete :
  step initial reuse_added /\
  step reuse_added reuse_deleted /\
  step reuse_deleted reuse_freed /\
  step reuse_freed reuse_added_again /\
  add_task 4096 1 "Old" "" "high" initial = (Return 4096%Z, reuse_added) /\
  Task.title <$> heap reuse_added !! 4096%Z = Some "Old" /\
  held_ids reuse_added = [4096%Z] /\
  delete_task 4096 reuse_added = (Return true, reuse_deleted) /\
  held_ids reuse_deleted = [] /\
  heap reuse_freed !! 4096%Z = None /\
  add_task 4096 2 "New" "" "low" reuse_freed = (Return 4096%Z, reuse_added_again) /\
  Task.title <$> heap reuse_added_again !! 4096%Z = Some "New" /\
  held_ids reuse_added_again = [4096%Z].
Proof.
  split; [apply (step_add_task 4096 1 "Old" "" "high" initial); reflexivity|].
  split; [apply (step_delete_task 4096 reuse_added)|].
  split; [apply (step_free 4096 reuse_deleted); by_evaluation|].
  split; [apply (step_add_task 4096 2 "New" "" "low" reuse_freed);
          vm_compute; reflexivity|].
  repeat split; vm_compute; reflexivity.
Qed.

(** ** Further properties of the store *)

(** X1: in every world a run can reach, each reference the store holds is
    to a live task whose [id] field is the address of the object and whose
    priority is high, medium or low, and no reference is held twice. *)
Theorem reachable_store_invariant (w : world) :
  reachable w ->
  NoDup (tasks w) /\
  forall a, a ∈ tasks w ->
    exists t, heap w !! a = Some t /\
      Task.id t = py_id a /\
      Task.priority t ∈ valid_priorities.
Proof.
  intros Hreach. apply reachable_wf in Hreach as [Hlive Hid Hnd Hprio].
  split; [done|]. intros a Ha. destruct (Hlive a Ha) as [t Ht].
  exists t. split; [done|]. split; [by apply Hid | by apply (Hprio a)].
Qed.

Lemma reachable_store_invariant_witness :
  reachable main_world /\
  NoDup (tasks main_world) /\
  forall a, a ∈ tasks main_world ->
    exists t, heap main_world !! a = Some t /\
      Task.id t = py_id a /\
      Task.priority t ∈ valid_priorities.
Proof.
  split; [exact reachable_main_world|].
  exact (reachable_store_invariant main_world reachable_main_world).
Defined.

(** X2: [delete_task] never raises: the index it passes to [pop] is always
    inside the list. For every world and every id it returns [True] when a
    held task has the id and [False] when none has, and the list of tasks
    is shorter by one in the first case and the same in the second. *)
Theorem delete_task_never_raises (task_id : Z) (w : world) :
  exists (b : bool) (w' : world),
    delete_task task_id w = (Return b, w') /\
    (b = true <-> task_id ∈ tasks w) /\
    length (tasks w') + (if b then 1 else 0) = length (tasks w) /\
    heap w' = heap w.
Proof.
  destruct (decide (task_id ∈ tasks w)) as [Hin|Hnot].
  - destruct (delete_task_present task_id w Hin) as (l1 & l2 & Hw & _ & Hdel).
    exists true. eexists. split; [exact Hdel|]. simpl.
    split; [done|]. split; [|done]. rewrite Hw, !length_app. simpl. lia.
  - exists false, w. split; [by apply delete_task_absent|].
    split; [split; [done | intros H; by destruct Hnot]|]. split; [lia | done].
Qed.

(** X3: [mark_complete] never raises and touches nothing but the completed
    flag of the task with the id: for every world and id it returns [True]
    when a held task has the id and [False] when none has, the list of
    tasks is the same, the same objects are live, and every object has the
    id, title, description, priority and creation time it had. *)
Theorem mark_complete_frame (task_id : Z) (w : world) :
  exists (b : bool) (w' : world),
    mark_complete task_id w = (Return b, w') /\
    (b = true <-> task_id ∈ tasks w) /\
    tasks w' = tasks w /\
    forall a,
      (heap w' !! a = heap w !! a \/
       b = true /\ a = task_id /\
       heap w' !! a = Task.mark_complete <$> heap w !! a) /\
      (fun t => (Task.id t, Task.title t, Task.description t,
                 Task.priority t, Task.created_at t)) <$> heap w' !! a
      = (fun t => (Task.id t, Task.title t, Task.description t,
                   Task.priority t, Task.created_at t)) <$> heap w !! a.
Proof.
  unfold mark_complete. destruct (decide (task_id ∈ tasks w)) as [Hin|Hnot].
  - exists true. eexists. split; [by apply mark_complete_loop_present|]. simpl.
    split; [done|]. split; [done|]. intros a.
    rewrite lookup_alter_mark_complete. case_decide as Ha.
    + subst a. split; [by right|]. by destruct (heap w !! task_id).
    + split; [by left | done].
  - exists false, w. split; [by apply mark_complete_loop_absent|].
    split; [split; [done | intros H; by destruct Hnot]|]. split; [done|].
    intros a. split; [by left | done].
Qed.

Lemma app_singleton_split (l l1 l2 : list Z) (a : Z) :
  l ++ [a] = l1 ++ a :: l2 -> a ∉ l2 -> l1 = l /\ l2 = [].
Proof.
  intros Heq Hl2. destruct l2 as [|x l2 _] using rev_ind.
  - apply app_inj_tail in Heq as [-> _]. done.
  - exfalso. rewrite app_comm_cons, app_assoc in Heq.
    apply app_inj_tail in Heq as [_ ->].
    apply Hl2, elem_of_app. right. by apply list_elem_of_singleton.
Qed.

Lemma delete_task_forgets (w : world) (a : Z) :
  wf w -> a ∈ tasks w -> a ∉ tasks (snd (delete_task a w)).
Proof.
  intros Hwf Hin.
  destruct (delete_task_present a w Hin) as (l1 & l2 & Hw & Hl1 & ->). simpl.
  pose proof (wf_nodup w Hwf) as Hnd. rewrite Hw in Hnd.
  apply NoDup_app in Hnd as (_ & _ & H2). apply NoDup_cons in H2 as [Hl2 _].
  intros Ha. apply elem_of_app in Ha as [Ha|Ha]; done.
Qed.

(** X4: adding a task and deleting it again gives back the list of tasks:
    in a reachable world, after an [add_task] that returns task [a],
    [delete_task] with the id of [a] returns [True] and the store holds the
    tasks it held before the two calls, in the same order. *)
Theorem add_task_then_delete_task
    (a now : Z) (title description priority : string) (w w1 : world) (r : Z) :
  reachable w ->
  heap w !! a = None ->
  add_task a now title description priority w = (Return r, w1) ->
  delete_task (py_id r) w1 = (Return true, {| heap := heap w1; tasks := tasks w |}).
Proof.
  intros Hreach Hfresh Hadd. apply reachable_wf in Hreach as Hwf.
  assert (Hwf1 : wf w1).
  { replace w1 with (snd (add_task a now title description priority w))
      by (by rewrite Hadd). by apply wf_add_task. }
  revert Hadd. unfold add_task. case_decide as Hp; [done|]. intros [= <- <-].
  unfold py_id. set (w1 := World _ _) in *.
  assert (Hin : a ∈ tasks w1).
  { apply elem_of_app. right. by apply list_elem_of_singleton. }
  destruct (delete_task_present a w1 Hin) as (l1 & l2 & Hw & Hl1 & Hdel).
  rewrite Hdel. pose proof (wf_nodup w1 Hwf1) as Hnd. rewrite Hw in Hnd.
  apply NoDup_app in Hnd as (_ & _ & H2). apply NoDup_cons in H2 as [Hl2 _].
  simpl in Hw. apply app_singleton_split in Hw as [-> ->]; [|done].
  by rewrite app_nil_r.
Qed.

Lemma add_task_then_delete_task_witness :
  reachable main_world /\
  heap main_world !! 4352%Z = None /\
  exists w1,
    add_task 4352 5 "Call" "Call the bank" "low" main_world = (Return 4352%Z, w1) /\
    delete_task (py_id 4352) w1
    = (Return true, {| heap := heap w1; tasks := tasks main_world |}).
Proof.
  split; [exact reachable_main_world|].
  assert (Hfresh : heap main_world !! 4352%Z = None) by (vm_compute; reflexivity).
  split; [exact Hfresh|]. eexists. split; [reflexivity|].
  exact (add_task_then_delete_task 4352 5 "Call" "Call the bank" "low"
           main_world _ 4352 reachable_main_world Hfresh eq_refl).
Defined.

(** X5: a deleted task is gone for later calls: in a reachable world, after
    [delete_task] with the id of a held task, a second [delete_task] and a
    [mark_complete] with the same id return [False] and change nothing. *)
Theorem delete_task_twice (w : world) (a : Z) :
  reachable w ->
  a ∈ tasks w ->
  exists w1,
    delete_task (py_id a) w = (Return true, w1) /\
    delete_task (py_id a) w1 = (Return false, w1) /\
    mark_complete (py_id a) w1 = (Return false, w1).
Proof.
  intros Hreach Hin. apply reachable_wf in Hreach as Hwf. unfold py_id.
  pose proof (delete_task_forgets w a Hwf Hin) as Hgone.
  destruct (delete_task_present a w Hin) as (l1 & l2 & _ & _ & Hdel).
  rewrite Hdel in *. eexists. split; [done|]. simpl in Hgone.
  split; [by apply delete_task_absent | by apply mark_complete_loop_absent].
Qed.

Lemma delete_task_twice_witness :
  reachable main_world /\
  4224%Z ∈ tasks main_world /\
  exists w1,
    delete_task (py_id 4224) main_world = (Return true, w1) /\
    delete_task (py_id 4224) w1 = (Return false, w1) /\
    mark_complete (py_id 4224) w1 = (Return false, w1).
Proof.
  assert (Hin : 4224%Z ∈ tasks main_world) by by_evaluation.
  split; [exact reachable_main_world|]. split; [exact Hin|].
  exact (delete_task_twice main_world 4224 reachable_main_world Hin).
Defined.

Lemma filter_ext_in {A : Type} (P Q : A -> Prop)
    `{!forall x, Decision (P x), !forall x, Decision (Q x)} (l : list A) :
  (forall x, x ∈ l -> (P x <-> Q x)) -> filter P l = filter Q l.
Proof.
  induction l as [|x l IH]; intros Hall; [done|].
  assert (Hx : P x <-> Q x) by (apply Hall, elem_of_cons; by left).
  assert (Hl : filter P l = filter Q l).
  { apply IH. intros y Hy. apply Hall, elem_of_cons. by right. }
  destruct (decide (P x)) as [HP|HP].
  - rewrite !filter_cons_True by tauto. by rewrite Hl.
  - rewrite !filter_cons_False by tauto. done.
Qed.

(** X6: the two queries do not look at the completed flag: for every world,
    id, priority and keyword, [filter_by_priority] and [search_by_keyword]
    return after [mark_complete] the tasks they returned before it. *)
Theorem queries_ignore_mark_complete
    (task_id : Z) (priority keyword : string) (w : world) :
  fst (filter_by_priority priority (snd (mark_complete task_id w)))
  = fst (filter_by_priority priority w) /\
  fst (search_by_keyword keyword (snd (mark_complete task_id w)))
  = fst (search_by_keyword keyword w).
Proof.
  destruct (heap_mark_complete task_id w) as [-> | ->]; [done|].
  unfold filter_by_priority, search_by_keyword. simpl. split; f_equal.
  - apply list_filter_iff. intros a. unfold has_priority. simpl.
    rewrite lookup_alter_mark_complete. case_decide; [|done].
    by destruct (heap w !! a).
  - apply list_filter_iff. intros a. unfold matches. simpl.
    rewrite lookup_alter_mark_complete. case_decide; [|done].
    by destruct (heap w !! a).
Qed.

Lemma add_task_old_lookup (a : Z) (t : Task.t) (w : world) (b : Z) :
  wf w -> heap w !! a = None -> b ∈ tasks w ->
  <[a := t]> (heap w) !! b = heap w !! b.
Proof.
  intros Hwf Hfresh Hb. apply lookup_insert_ne. intros ->.
  destruct (wf_live w Hwf b Hb) as [u Hu]. congruence.
Qed.

(** X7: a new task joins the results of [filter_by_priority] for its own
    priority and no others: in a reachable world, after an [add_task] that
    returns task [r], the filter for a priority [q] returns what it
    returned before, followed by [r] when [q] and the priority of the new
    task have the same lowercase form, and by nothing otherwise. *)
Theorem filter_by_priority_after_add_task
    (a now : Z) (title description priority q : string) (w w1 : world)
    (r : Z) (l : list Z) :
  reachable w ->
  heap w !! a = None ->
  add_task a now title description priority w = (Return r, w1) ->
  fst (filter_by_priority q w) = Return l ->
  fst (filter_by_priority q w1)
  = Return (l ++ if decide (Str.lower q = Str.lower priority) then [r] else []).
Proof.
  intros Hreach Hfresh Hadd Hl. apply reachable_wf in Hreach as Hwf.
  revert Hadd. unfold add_task. case_decide as Hp; [done|]. intros [= <- <-].
  revert Hl. unfold filter_by_priority. simpl. intros [= <-].
  rewrite filter_app. f_equal. f_equal.
  - apply filter_ext_in. intros b Hb. unfold has_priority. simpl.
    by rewrite add_task_old_lookup.
  - case_decide as Hq.
    + rewrite filter_cons_True; [done|].
      unfold has_priority. simpl. rewrite lookup_insert_eq. simpl. by rewrite Hq.
    + rewrite filter_cons_False; [done|].
      unfold has_priority. simpl. rewrite lookup_insert_eq. simpl.
      intros [= H]. by rewrite H in Hq.
Qed.

Lemma filter_by_priority_after_add_task_witness :
  reachable main_world /\
  heap main_world !! 4352%Z = None /\
  exists w1,
    add_task 4352 5 "Call" "Call the bank" "High" main_world = (Return 4352%Z, w1) /\
    fst (filter_by_priority "HIGH" main_world) = Return [4096%Z; 4288%Z] /\
    fst (filter_by_priority "HIGH" w1)
    = Return ([4096%Z; 4288%Z]
              ++ if decide (Str.lower "HIGH" = Str.lower "High") then [4352%Z] else []).
Proof.
  split; [exact reachable_main_world|].
  assert (Hfresh : heap main_world !! 4352%Z = None) by (vm_compute; reflexivity).
  assert (Hl : fst (filter_by_priority "HIGH" main_world) = Return [4096%Z; 4288%Z])
    by (vm_compute; reflexivity).
  split; [exact Hfresh|]. eexists. split; [reflexivity|]. split; [exact Hl|].
  exact (filter_by_priority_after_add_task 4352 5 "Call" "Call the bank" "High" "HIGH"
           main_world _ 4352 _ reachable_main_world Hfresh eq_refl Hl).
Defined.

(** X8: a new task joins the results of [search_by_keyword] for the
    keywords that occur in it and no others: in a reachable world, after an
    [add_task] that returns task [r], the search for a keyword [k] returns
    what it returned before, followed by [r] when the lowercased [k] is a
    substring of the lowercased title or description of the new task, and
    by nothing otherwise. *)
Theorem search_by_keyword_after_add_task
    (a now : Z) (title description priority k : string) (w w1 : world)
    (r : Z) (l : list Z) :
  reachable w ->
  heap w !! a = None ->
  add_task a now title description priority w = (Return r, w1) ->
  fst (search_by_keyword k w) = Return l ->
  exists found : list Z,
    fst (search_by_keyword k w1) = Return (l ++ found) /\
    (found = [r] \/ found = []) /\
    (found = [r] <->
     Str.substring_of (Str.lower k) (Str.lower title) \/
     Str.substring_of (Str.lower k) (Str.lower description)).
Proof.
  intros Hreach Hfresh Hadd Hl. apply reachable_wf in Hreach as Hwf.
  revert Hadd. unfold add_task. case_decide as Hp; [done|]. intros [= <- <-].
  revert Hl. unfold search_by_keyword. simpl. intros [= <-].
  set (w1 := World _ _).
  assert (Hold : filter (matches w1 (Str.lower k)) (tasks w)
                 = filter (matches w (Str.lower k)) (tasks w)).
  { apply filter_ext_in. intros b Hb. unfold matches, w1. simpl.
    by rewrite add_task_old_lookup. }
  assert (Hnew : matches w1 (Str.lower k) a <->
    Str.substring_of (Str.lower k) (Str.lower title) \/
    Str.substring_of (Str.lower k) (Str.lower description)).
  { rewrite matches_iff. unfold w1. simpl. rewrite lookup_insert_eq. split.
    - intros (t & [= <-] & H). exact H.
    - intros H. eexists. split; [done | exact H]. }
  rewrite filter_app, Hold. destruct (decide (matches w1 (Str.lower k) a)) as [Hm|Hm].
  - exists [a]. rewrite filter_cons_True by done. split; [done|].
    split; [by left|]. split; [intros _; by apply Hnew | done].
  - exists []. rewrite filter_cons_False by done. split; [done|].
    split; [by right|]. split; [done | intros H; by apply Hnew in H].
Qed.

Lemma search_by_keyword_after_add_task_witness :
  reachable main_world /\
  heap main_world !! 4352%Z = None /\
  exists w1,
    add_task 4352 5 "Call" "Call the project bank" "low" main_world
    = (Return 4352%Z, w1) /\
    fst (search_by_keyword "Project" main_world) = Return [4096%Z] /\
    exists found : list Z,
      fst (search_by_keyword "Project" w1) = Return ([4096%Z] ++ found) /\
      (found = [4352%Z] \/ found = []) /\
      (found = [4352%Z] <->
       Str.substring_of (Str.lower "Project") (Str.lower "Call") \/
       Str.substring_of (Str.lower "Project") (Str.lower "Call the project bank")).
Proof.
  split; [exact reachable_main_world|].
  assert (Hfresh : heap main_world !! 4352%Z = None) by (vm_compute; reflexivity).
  assert (Hl : fst (search_by_keyword "Project" main_world) = Return [4096%Z])
    by (vm_compute; reflexivity).
  split; [exact Hfresh|]. eexists. split; [reflexivity|]. split; [exact Hl|].
  exact (search_by_keyword_after_add_task 4352 5 "Call" "Call the project bank" "low"
           "Project" main_world _ 4352 _ reachable_main_world Hfresh eq_refl Hl).
Defined.

Lemma filter_three_ways (w : world) (l : list Z) :
  (forall a, a ∈ l ->
     exists t, heap w !! a = Some t /\ Task.priority t ∈ valid_priorities) ->
  filter (has_priority w "high") l ++ filter (has_priority w "medium") l
    ++ filter (has_priority w "low") l ≡ₚ l.
Proof.
  induction l as [|a l IH]; intros Hall; [done|].
  assert (IH' := IH (fun b Hb => Hall b (proj2 (elem_of_cons _ _ _) (or_intror Hb)))).
  destruct (Hall a) as (t & Ht & Hp); [apply elem_of_cons; by left|].
  assert (Hhas : forall p, has_priority w p a <-> Task.priority t = p).
  { intros p. unfold has_priority. rewrite Ht. simpl. split; congruence. }
  unfold valid_priorities in Hp.
  apply elem_of_cons in Hp as [Hp|Hp]; [|apply elem_of_cons in Hp as [Hp|Hp];
    [|apply list_elem_of_singleton in Hp]].
  - rewrite (filter_cons_True (has_priority w "high")) by by apply Hhas.
    rewrite !(filter_cons_False _ a l)
      by (rewrite Hhas, Hp; discriminate).
    simpl. by constructor.
  - rewrite (filter_cons_True (has_priority w "medium")) by by apply Hhas.
    rewrite !(filter_cons_False _ a l)
      by (rewrite Hhas, Hp; discriminate).
    rewrite <- app_comm_cons, <- Permutation_middle. by constructor.
  - rewrite (filter_cons_True (has_priority w "low")) by by apply Hhas.
    rewrite !(filter_cons_False _ a l)
      by (rewrite Hhas, Hp; discriminate).
    rewrite app_assoc, <- Permutation_middle, <- app_assoc. by constructor.
Qed.

(** X9: the three priorities split the store: in a reachable world the
    results of [filter_by_priority] for high, medium and low hold, between
    them, every task of the store exactly once, so their lengths add up to
    the number of tasks. *)
Theorem filter_by_priority_partition (w : world) :
  reachable w ->
  exists high medium low : list Z,
    fst (filter_by_priority "high" w) = Return high /\
    fst (filter_by_priority "medium" w) = Return medium /\
    fst (filter_by_priority "low" w) = Return low /\
    high ++ medium ++ low ≡ₚ tasks w /\
    length high + length medium + length low = length (tasks w).
Proof.
  intros Hreach. apply reachable_wf in Hreach as Hwf.
  do 3 eexists. do 3 (split; [reflexivity|]).
  assert (Hperm : filter (has_priority w "high") (tasks w)
                  ++ filter (has_priority w "medium") (tasks w)
                  ++ filter (has_priority w "low") (tasks w) ≡ₚ tasks w).
  { apply filter_three_ways. intros a Ha. destruct (wf_live w Hwf a Ha) as [t Ht].
    exists t. split; [done | by apply (wf_priority w Hwf a)]. }
  simpl. split; [exact Hperm|].
  apply Permutation_length in Hperm.
  rewrite !length_app, Nat.add_assoc in Hperm. exact Hperm.
Qed.

Lemma filter_by_priority_partition_witness :
  reachable main_world /\
  exists high medium low : list Z,
    fst (filter_by_priority "high" main_world) = Return high /\
    fst (filter_by_priority "medium" main_world) = Return medium /\
    fst (filter_by_priority "low" main_world) = Return low /\
    high ++ medium ++ low ≡ₚ tasks main_world /\
    length high + length medium + length low = length (tasks main_world).
Proof.
  split; [exact reachable_main_world|].
  exact (filter_by_priority_partition main_world reachable_main_world).
Defined.

Lemma lower_char_idempotent (c : ascii) :
  Str.lower_char (Str.lower_char c) = Str.lower_char c.
Proof.
  destruct c as [[] [] [] [] [] [] [] []]; vm_compute; reflexivity.
Qed.

Lemma lower_idempotent (s : string) : Str.lower (Str.lower s) = Str.lower s.
Proof.
  induction s as [|c s IH]; [done|]. simpl. by rewrite lower_char_idempotent, IH.
Qed.

(** X10: the casing of a priority or keyword argument never matters: for
    every world, [add_task], [filter_by_priority] and [search_by_keyword]
    do for an argument what they do for its lowercase form. *)
Theorem arguments_case_insensitive
    (a now : Z) (title description priority keyword : string) (w : world) :
  add_task a now title description (Str.lower priority) w
  = add_task a now title description priority w /\
  filter_by_priority (Str.lower priority) w = filter_by_priority priority w /\
  search_by_keyword (Str.lower keyword) w = search_by_keyword keyword w.
Proof.
  unfold add_task, Task.init, filter_by_priority, search_by_keyword.
  by rewrite !lower_idempotent.
Qed.

(** ** Rendering and display *)

Lemma str_of_ref_live (w : world) (a : Z) (t : Task.t) :
  heap w !! a = Some t -> str_of_ref w a = Task_str t.
Proof. intros H. unfold str_of_ref. by rewrite H. Qed.

(** X11: [mark_complete] changes how the marked task is rendered in its
    status mark only, and changes no other rendering: in a reachable world,
    for a task [t] the store holds, the text of [t] before and after is the
    same but for the mark, which is the check mark afterwards, and every
    other object renders as before. *)
Theorem mark_complete_rendering (w : world) (a : Z) (t : Task.t) :
  reachable w ->
  a ∈ tasks w ->
  heap w !! a = Some t ->
  exists (w1 : world) (rest : list N),
    mark_complete (Task.id t) w = (Return true, w1) /\
    str_of_ref w a
    = code_points "[" ++ [if Task.completed t then check_mark else white_circle]
      ++ rest /\
    str_of_ref w1 a = code_points "[" ++ [check_mark] ++ rest /\
    forall b, b <> a -> str_of_ref w1 b = str_of_ref w b.
Proof.
  intros Hreach Hin Ht. apply reachable_wf in Hreach as Hwf.
  rewrite (wf_id w Hwf a t Ht). unfold mark_complete.
  rewrite mark_complete_loop_present by done.
  eexists. exists (code_points "] " ++ code_points (Task.title t)
    ++ code_points " (Priority: " ++ code_points (Task.priority t)
    ++ code_points ") - " ++ code_points (Task.description t)).
  split; [done|]. split; [|split].
  - rewrite (str_of_ref_live w a t Ht). unfold Task_str. by destruct (Task.completed t).
  - rewrite (str_of_ref_live _ a (Task.mark_complete t)); [done|]. simpl.
    by rewrite lookup_alter_mark_complete, decide_True, Ht.
  - intros b Hb. unfold str_of_ref. simpl.
    by rewrite lookup_alter_mark_complete, decide_False.
Qed.

Lemma mark_complete_rendering_witness :
  reachable main_world /\
  4096%Z ∈ tasks main_world /\
  heap main_world !! 4096%Z
  = Some (Task.init 4096 1 "Complete project" "Finish the Python project" "high") /\
  exists (w1 : world) (rest : list N),
    mark_complete 4096 main_world = (Return true, w1) /\
    str_of_ref main_world 4096 = code_points "[" ++ [white_circle] ++ rest /\
    str_of_ref w1 4096 = code_points "[" ++ [check_mark] ++ rest /\
    forall b, b <> 4096%Z -> str_of_ref w1 b = str_of_ref main_world b.
Proof.
  assert (Hin : 4096%Z ∈ tasks main_world) by by_evaluation.
  assert (Ht : heap main_world !! 4096%Z
               = Some (Task.init 4096 1 "Complete project"
                                 "Finish the Python project" "high"))
    by (vm_compute; reflexivity).
  split; [exact reachable_main_world|]. split; [exact Hin|]. split; [exact Ht|].
  exact (mark_complete_rendering main_world 4096 _ reachable_main_world Hin Ht).
Defined.

Lemma display_loop_imap (w : world) (i : nat) (l : list Z) :
  display_loop w (enumerate_from i l)
  = imap (fun k task => str_of_nat (i + k) ++ code_points ". " ++ str_of_ref w task) l.
Proof.
  revert i. induction l as [|task l IH]; intros i; [done|]. simpl.
  rewrite Nat.add_0_r. f_equal. rewrite IH. apply imap_ext.
  intros k x _. simpl. do 2 f_equal. lia.
Qed.

(** X12: what [display_tasks] prints. The list it displays is its argument,
    or the tasks of the store when the argument is [None]. When that list is
    empty (also an explicit empty list over a store that holds tasks) it
    prints the one line "No tasks found." and no border. Otherwise it prints
    the top border, one line for each task and the bottom border: the task
    at position [k] of the list, counting from 0, is on line [k + 1] as its
    number [k + 1], a full stop, a space and the text of the task. *)
Theorem display_tasks_lines (tasks_arg : option (list Z)) (w : world) :
  (default (tasks w) tasks_arg = [] ->
   display_tasks tasks_arg w = [code_points "No tasks found."]) /\
  (default (tasks w) tasks_arg <> [] ->
   length (display_tasks tasks_arg w) = length (default (tasks w) tasks_arg) + 2 /\
   display_tasks tasks_arg w !! 0 = Some ([LF] ++ border) /\
   display_tasks tasks_arg w !! S (length (default (tasks w) tasks_arg))
   = Some (border ++ [LF]) /\
   forall (k : nat) (task : Z),
     default (tasks w) tasks_arg !! k = Some task ->
     display_tasks tasks_arg w !! S k
     = Some (str_of_nat (S k) ++ code_points ". " ++ str_of_ref w task)).
Proof.
  assert (Hdl : display_tasks tasks_arg w
    = match default (tasks w) tasks_arg with
      | [] => [code_points "No tasks found."]
      | _ :: _ =>
          [[LF] ++ border]
          ++ display_loop w (enumerate_from 1 (default (tasks w) tasks_arg))
          ++ [border ++ [LF]]
      end) by (by destruct tasks_arg).
  rewrite Hdl. clear Hdl. destruct (default (tasks w) tasks_arg) as [|x l] eqn:E.
  { split; done. }
  split; [done|]. intros _. rewrite display_loop_imap.
  set (line := fun k task => _).
  change ([[LF] ++ border] ++ imap line (x :: l) ++ [border ++ [LF]])
    with (([LF] ++ border) :: (imap line (x :: l) ++ [border ++ [LF]])).
  split; [|split; [done|split]].
  - simpl. rewrite length_app, length_imap. simpl. lia.
  - rewrite lookup_cons, lookup_app_r by (by rewrite length_imap).
    by rewrite length_imap, Nat.sub_diag.
  - intros k task Hk.
    rewrite lookup_cons, lookup_app_l
      by (rewrite length_imap; by apply lookup_lt_Some in Hk).
    by rewrite list_lookup_imap, Hk.
Qed.

Lemma NoDup_four (a1 a2 a3 a4 : Z) :
  NoDup [a1; a2; a3; a4] ->
  a1 <> a2 /\ a1 <> a3 /\ a1 <> a4 /\ a2 <> a3 /\ a2 <> a4 /\ a3 <> a4.
Proof.
  intros Hnd.
  apply NoDup_cons in Hnd as [Hn1 Hnd]. apply NoDup_cons in Hnd as [Hn2 Hnd].
  apply NoDup_cons in Hnd as [Hn3 _].
  apply not_elem_of_cons in Hn1 as [H12 Hn1].
  apply not_elem_of_cons in Hn1 as [H13 Hn1].
  apply not_elem_of_cons in Hn1 as [H14 _].
  apply not_elem_of_cons in Hn2 as [H23 Hn2].
  apply not_elem_of_cons in Hn2 as [H24 _].
  apply not_elem_of_cons in Hn3 as [H34 _].
  done.
Qed.

Lemma print_all_app {E : Type} (stdout : list (list N) -> list N -> option E)
    (sent l1 l2 : list (list N)) :
  print_all E stdout sent (l1 ++ l2)
  = match print_all E stdout sent l1 with
    | (Some e, sent') => (Some e, sent')
    | (None, sent') => print_all E stdout sent' l2
    end.
Proof.
  revert sent. induction l1 as [|text l1 IH]; intros sent; simpl; [done|].
  destruct (stdout sent text); [done | apply IH].
Qed.

Lemma print_all_returns {E : Type} (stdout : list (list N) -> list N -> option E)
    (sent l : list (list N)) :
  (forall k text, l !! k = Some text -> stdout (sent ++ take k l) text = None) ->
  print_all E stdout sent l = (None, sent ++ l).
Proof.
  revert sent. induction l as [|text l IH]; intros sent Hall; simpl.
  - by rewrite app_nil_r.
  - pose proof (Hall 0 text eq_refl) as H0. simpl in H0.
    rewrite app_nil_r in H0. rewrite H0.
    rewrite IH; [by rewrite <- app_assoc|].
    intros k t Hk. rewrite <- app_assoc. apply (Hall (S k) t Hk).
Qed.

Lemma print_all_ext {E : Type} (f g : list (list N) -> list N -> option E)
    (sent l : list (list N)) :
  (forall d t, f d t = g d t) -> print_all E f sent l = print_all E g sent l.
Proof.
  intros Hfg. revert sent. induction l as [|text l IH]; intros sent; simpl; [done|].
  rewrite Hfg. destruct (g sent text); [done | apply IH].
Qed.

(** X13: the calls of [print] of [main] are the same in every run:
    whichever four addresses the runtime gives the four tasks (four objects
    live together have four different addresses) and whatever the clock
    reads, [main] makes the 23 calls of [main_output], in that order, up to
    the first call that raises, and ends with the exception of that call;
    no call of the store raises. So if every call of [print] returns,
    [main] ends normally after the 23 calls; and on an output that cannot
    take code points above 255, such as the status marks, it ends with the
    exception of the third call, after the heading and the top border. *)
Theorem main_prints (E : Type) (stdout : list (list N) -> list N -> option E)
    (a1 a2 a3 a4 now1 now2 now3 now4 : Z) :
  NoDup [a1; a2; a3; a4] ->
  main E stdout a1 a2 a3 a4 now1 now2 now3 now4
  = match print_all E stdout [] main_output with
    | (Some e, sent) => (PrintRaises e, sent)
    | (None, sent) => (Ends, sent)
    end /\
  ((forall k text,
      main_output !! k = Some text -> stdout (take k main_output) text = None) ->
   main E stdout a1 a2 a3 a4 now1 now2 now3 now4 = (Ends, main_output)) /\
  (forall e : E,
     (forall sent text,
        stdout sent text
        = if decide (Exists (fun c => (256 <= c)%N) text) then Some e else None) ->
     main E stdout a1 a2 a3 a4 now1 now2 now3 now4
     = (PrintRaises e, [code_points "All Tasks:"; [LF] ++ border])).
Proof.
  intros Hnd.
  assert (Hmain : main E stdout a1 a2 a3 a4 now1 now2 now3 now4
    = match print_all E stdout [] main_output with
      | (Some e, sent) => (PrintRaises e, sent)
      | (None, sent) => (Ends, sent)
      end).
  { destruct (NoDup_four a1 a2 a3 a4 Hnd) as (H12 & H13 & H14 & H23 & H24 & H34).
    unfold main.
    rewrite (add_task_return a1) by by_evaluation. cbv beta iota zeta.
    rewrite (add_task_return a2) by by_evaluation. cbv beta iota zeta.
    rewrite (add_task_return a3) by by_evaluation. cbv beta iota zeta.
    rewrite (add_task_return a4) by by_evaluation. cbv beta iota zeta.
    cbn [tasks heap initial app].
    set (T1 := Task.init a1 _ _ _ _). set (T2 := Task.init a2 _ _ _ _).
    set (T3 := Task.init a3 _ _ _ _). set (T4 := Task.init a4 _ _ _ _).
    set (W := World _ _).
    assert (Hl1 : heap W !! a1 = Some T1).
    { unfold W. simpl. by rewrite !lookup_insert_ne, lookup_insert_eq by congruence. }
    assert (Hl2 : heap W !! a2 = Some T2).
    { unfold W. simpl. by rewrite !lookup_insert_ne, lookup_insert_eq by congruence. }
    assert (Hl3 : heap W !! a3 = Some T3).
    { unfold W. simpl. by rewrite !lookup_insert_ne, lookup_insert_eq by congruence. }
    assert (Hl4 : heap W !! a4 = Some T4).
    { unfold W. simpl. by rewrite lookup_insert_eq. }
    assert (Hhigh : filter_by_priority "high" W = (Return [a1; a4], W)).
    { unfold filter_by_priority. do 2 f_equal. change (tasks W) with [a1; a2; a3; a4].
      rewrite (filter_cons_True _ a1) by (unfold has_priority; by rewrite Hl1).
      rewrite (filter_cons_False _ a2)
        by (unfold has_priority; rewrite Hl2; vm_compute; discriminate).
      rewrite (filter_cons_False _ a3)
        by (unfold has_priority; rewrite Hl3; vm_compute; discriminate).
      rewrite (filter_cons_True _ a4) by (unfold has_priority; by rewrite Hl4).
      done. }
    assert (Hfound : search_by_keyword "project" W = (Return [a1], W)).
    { unfold search_by_keyword. cbv zeta. do 2 f_equal.
      change (tasks W) with [a1; a2; a3; a4].
      rewrite (filter_cons_True _ a1) by (unfold matches; by rewrite Hl1).
      rewrite (filter_cons_False _ a2)
        by (unfold matches; rewrite Hl2; vm_compute; discriminate).
      rewrite (filter_cons_False _ a3)
        by (unfold matches; rewrite Hl3; vm_compute; discriminate).
      rewrite (filter_cons_False _ a4)
        by (unfold matches; rewrite Hl4; vm_compute; discriminate).
      done. }
    rewrite Hhigh. cbv beta iota. rewrite Hfound. cbv beta iota.
    unfold list_all_tasks. cbv beta iota.
    change (tasks W !! 0) with (Some a1). cbv beta iota.
    unfold py_id, mark_complete.
    rewrite (mark_complete_loop_present a1)
      by (change (tasks W) with [a1; a2; a3; a4]; apply elem_of_cons; by left).
    cbv beta iota. change (tasks W) with [a1; a2; a3; a4].
    set (W' := World _ _).
    assert (Hm1 : heap W' !! a1 = Some (Task.mark_complete T1)).
    { change (heap W') with (alter Task.mark_complete a1 (heap W)).
      by rewrite lookup_alter_mark_complete, decide_True, Hl1. }
    assert (Hm2 : heap W' !! a2 = Some T2).
    { change (heap W') with (alter Task.mark_complete a1 (heap W)).
      by rewrite lookup_alter_mark_complete, decide_False, Hl2. }
    assert (Hm3 : heap W' !! a3 = Some T3).
    { change (heap W') with (alter Task.mark_complete a1 (heap W)).
      by rewrite lookup_alter_mark_complete, decide_False, Hl3. }
    assert (Hm4 : heap W' !! a4 = Some T4).
    { change (heap W') with (alter Task.mark_complete a1 (heap W)).
      by rewrite lookup_alter_mark_complete, decide_False, Hl4. }
    assert (Hd1 : display_tasks None W = take 6 (drop 1 main_output)).
    { unfold display_tasks. change (tasks W) with [a1; a2; a3; a4].
      cbn [display_loop enumerate_from].
      rewrite (str_of_ref_live W a1 T1), (str_of_ref_live W a2 T2),
        (str_of_ref_live W a3 T3), (str_of_ref_live W a4 T4) by done.
      vm_compute. reflexivity. }
    assert (Hd2 : display_tasks (Some [a1; a4]) W = take 4 (drop 8 main_output)).
    { unfold display_tasks. cbn [display_loop enumerate_from].
      rewrite (str_of_ref_live W a1 T1), (str_of_ref_live W a4 T4) by done.
      vm_compute. reflexivity. }
    assert (Hd3 : display_tasks (Some [a1]) W = take 3 (drop 13 main_output)).
    { unfold display_tasks. cbn [display_loop enumerate_from].
      rewrite (str_of_ref_live W a1 T1) by done.
      vm_compute. reflexivity. }
    assert (Hd4 : display_tasks None W' = drop 17 main_output).
    { unfold display_tasks. change (tasks W') with [a1; a2; a3; a4].
      cbn [display_loop enumerate_from].
      rewrite (str_of_ref_live W' a1 (Task.mark_complete T1)),
        (str_of_ref_live W' a2 T2), (str_of_ref_live W' a3 T3),
        (str_of_ref_live W' a4 T4) by done.
      vm_compute. reflexivity. }
    rewrite Hd1, Hd2, Hd3, Hd4. clear.
    change (print_all E stdout [] main_output)
      with (print_all E stdout []
              ([code_points "All Tasks:"] ++ take 6 (drop 1 main_output)
               ++ [code_points "High Priority Tasks:"]
               ++ take 4 (drop 8 main_output)
               ++ [code_points "Search results for 'project':"]
               ++ take 3 (drop 13 main_output)
               ++ [code_points "After marking first task as complete:"]
               ++ drop 17 main_output)).
    unfold print_then.
    repeat (rewrite print_all_app;
            destruct (print_all E stdout _ _) as [[?|] ?]; [reflexivity|]).
    by destruct (print_all E stdout _ _) as [[?|] ?]. }
  split; [exact Hmain|]. split.
  - intros Hall. rewrite Hmain, print_all_returns; [done|]. exact Hall.
  - intros e He. rewrite Hmain.
    rewrite (print_all_ext stdout
      (fun _ text =>
         if decide (Exists (fun c => (256 <= c)%N) text) then Some e else None))
      by exact He.
    vm_compute. reflexivity.
Qed.

Lemma main_prints_witness :
  NoDup [4096%Z; 4160%Z; 4224%Z; 4288%Z] /\
  main unit (fun _ _ => None) 4096 4160 4224 4288 1 2 3 4
  = match print_all unit (fun _ _ => None) [] main_output with
    | (Some e, sent) => (PrintRaises e, sent)
    | (None, sent) => (Ends, sent)
    end /\
  ((forall (k : nat) (text : list N),
      main_output !! k = Some text ->
      (fun (_ : list (list N)) (_ : list N) => @None unit) (take k main_output) text
      = None) ->
   main unit (fun _ _ => None) 4096 4160 4224 4288 1 2 3 4 = (Ends, main_output)) /\
  (forall e : unit,
     (forall (sent : list (list N)) (text : list N),
        (fun (_ : list (list N)) (_ : list N) => @None unit) sent text
        = if decide (Exists (fun c => (256 <= c)%N) text) then Some e else None) ->
     main unit (fun _ _ => None) 4096 4160 4224 4288 1 2 3 4
     = (PrintRaises e, [code_points "All Tasks:"; [LF] ++ border])).
Proof.
  assert (Hnd : NoDup [4096%Z; 4160%Z; 4224%Z; 4288%Z]) by by_evaluation.
  split; [exact Hnd|].
  exact (main_prints unit (fun _ _ => None) 4096 4160 4224 4288 1 2 3 4 Hnd).
Defined.

(** ** Objects over a run *)

Lemma step_keeps_fields (w w' : world) (b : Z) (t t' : Task.t) :
  step w w' ->
  heap w !! b = Some t -> heap w' !! b = Some t' ->
  Task.mark_complete t' = Task.mark_complete t.
Proof.
  intros Hstep Hb.
  destruct Hstep as [a now ti de pr w Hf|i w|i w|a now ti de pr w Hf|a w Hnot].
  - unfold add_task. case_decide; simpl; [congruence|].
    rewrite lookup_insert_ne by congruence. congruence.
  - destruct (heap_mark_complete i w) as [-> | ->]; simpl; [congruence|].
    rewrite lookup_alter_mark_complete, Hb.
    case_decide; simpl; [by intros [= <-] | congruence].
  - destruct (decide (i ∈ tasks w)) as [Hin|Hnot].
    + destruct (delete_task_present i w Hin) as (l1 & l2 & _ & _ & ->).
      simpl. congruence.
    + rewrite delete_task_absent by done. simpl. congruence.
  - simpl. rewrite lookup_insert_ne by congruence. congruence.
  - simpl. intros Hb'. apply lookup_delete_Some in Hb' as [_ Hb']. congruence.
Qed.

(** X14: a task object changes in one way only. Over any number of steps
    that the object at [a] lives through, its id, title, description,
    priority and creation time stay what they were, and its completed flag,
    once true, stays true. *)
Theorem task_fields_immutable (a : Z) (w w' : world) (t : Task.t) :
  rtc (step_keeping a) w w' ->
  heap w !! a = Some t ->
  exists t',
    heap w' !! a = Some t' /\
    Task.id t' = Task.id t /\
    Task.title t' = Task.title t /\
    Task.description t' = Task.description t /\
    Task.priority t' = Task.priority t /\
    Task.created_at t' = Task.created_at t /\
    (Task.completed t = true -> Task.completed t' = true).
Proof.
  intros Hrun. revert t. induction Hrun as [w|w w1 w' [Hstep [t1 Ht1]] _ IH]; intros t Ht.
  - exists t. by repeat split.
  - destruct (IH t1 Ht1) as (t' & Ht' & Hid & Hti & Hde & Hpr & Hcr & Hco).
    exists t'. split; [done|].
    pose proof (step_keeps_fields w w1 a t t1 Hstep Ht Ht1) as Hsame.
    pose proof (step_keeps_completed w w1 a t t1 Hstep Ht) as Hdone.
    injection Hsame as Hid1 Hti1 Hde1 Hpr1 Hcr1.
    repeat split; [congruence..|]. intros Hc. by apply Hco, Hdone.
Qed.

Lemma task_fields_immutable_witness :
  rtc (step_keeping 4096) main_world (snd (mark_complete 4096 main_world)) /\
  heap main_world !! 4096%Z
  = Some (Task.init 4096 1 "Complete project" "Finish the Python project" "high") /\
  exists t',
    heap (snd (mark_complete 4096 main_world)) !! 4096%Z = Some t' /\
    Task.id t' = 4096%Z /\
    Task.title t' = "Complete project" /\
    Task.description t' = "Finish the Python project" /\
    Task.priority t' = "high" /\
    Task.created_at t' = 1%Z /\
    (false = true -> Task.completed t' = true).
Proof.
  assert (Hrun : rtc (step_keeping 4096) main_world
                     (snd (mark_complete 4096 main_world))).
  { apply rtc_once. split; [constructor|]. vm_compute. by eexists. }
  assert (Ht : heap main_world !! 4096%Z
               = Some (Task.init 4096 1 "Complete project"
                                 "Finish the Python project" "high"))
    by (vm_compute; reflexivity).
  split; [exact Hrun|]. split; [exact Ht|].
  exact (task_fields_immutable 4096 main_world _ _ Hrun Ht).
Defined.

(** X15: an id kept from a deleted task can reach a later task. In a
    reachable world, after [delete_task] with the id of a held task, once
    the runtime has freed the object and [add_task] has built a new task at
    the address that became free, [mark_complete] with the old id returns
    [True] and completes the new task. *)
Theorem stale_id_marks_new_task
    (w : world) (a now : Z) (title description priority : string) (t : Task.t) :
  reachable w ->
  a ∈ tasks w ->
  heap w !! a = Some t ->
  Str.lower priority ∈ valid_priorities ->
  exists w1 w3 w4 : world,
    delete_task (Task.id t) w = (Return true, w1) /\
    step w1 (free a w1) /\
    add_task a now title description priority (free a w1) = (Return a, w3) /\
    reachable w3 /\
    mark_complete (Task.id t) w3 = (Return true, w4) /\
    heap w4 !! a
    = Some (Task.mark_complete (Task.init a now title description priority)).
Proof.
  intros Hreach Hin Ht Hp. apply reachable_wf in Hreach as Hwf.
  rewrite (wf_id w Hwf a t Ht).
  pose proof (delete_task_forgets w a Hwf Hin) as Hgone.
  pose proof (reachable_delete_task a w Hreach) as Hreach1.
  destruct (delete_task_present a w Hin) as (l1 & l2 & _ & _ & Hdel).
  rewrite Hdel in *. simpl in Hgone, Hreach1. set (w1 := World _ _) in *.
  assert (Hstep : step w1 (free a w1)) by (by apply step_free).
  assert (Hreach2 : reachable (free a w1)) by (eapply rtc_r; [exact Hreach1 | done]).
  assert (Hfresh : heap (free a w1) !! a = None) by apply lookup_delete_eq.
  pose proof (reachable_add_task a now title description priority _ Hreach2 Hfresh)
    as Hreach3.
  rewrite add_task_return in Hreach3 by done. simpl in Hreach3.
  exists w1. do 2 eexists. split; [done|]. split; [exact Hstep|].
  split; [by apply add_task_return|].
  split; [exact Hreach3|]. unfold mark_complete. simpl.
  rewrite mark_complete_loop_present
    by (apply elem_of_app; right; by apply list_elem_of_singleton).
  split; [done|]. simpl.
  by rewrite lookup_alter_mark_complete, decide_True, lookup_insert_eq.
Qed.

Lemma stale_id_marks_new_task_witness :
  reachable main_world /\
  4160%Z ∈ tasks main_world /\
  heap main_world !! 4160%Z
  = Some (Task.init 4160 2 "Review code" "Review pull requests" "medium") /\
  Str.lower "LOW" ∈ valid_priorities /\
  exists w1 w3 w4 : world,
    delete_task 4160 main_world = (Return true, w1) /\
    step w1 (free 4160 w1) /\
    add_task 4160 5 "Call" "Call the bank" "LOW" (free 4160 w1) = (Return 4160%Z, w3) /\
    reachable w3 /\
    mark_complete 4160 w3 = (Return true, w4) /\
    heap w4 !! 4160%Z
    = Some (Task.mark_complete (Task.init 4160 5 "Call" "Call the bank" "LOW")).
Proof.
  assert (Hin : 4160%Z ∈ tasks main_world) by by_evaluation.
  assert (Ht : heap main_world !! 4160%Z
               = Some (Task.init 4160 2 "Review code" "Review pull requests" "medium"))
    by (vm_compute; reflexivity).
  assert (Hp : Str.lower "LOW" ∈ valid_priorities) by by_evaluation.
  split; [exact reachable_main_world|]. split; [exact Hin|]. split; [exact Ht|].
  split; [exact Hp|].
  exact (stale_id_marks_new_task main_world 4160 5 "Call" "Call the bank" "LOW" _
           reachable_main_world Hin Ht Hp).
Defined.

Lemma filter_without (P : Z -> Prop) `{!forall x, Decision (P x)}
    (l1 l2 : list Z) (a : Z) :
  a ∉ l1 -> a ∉ l2 ->
  filter P (l1 ++ l2) = filter (fun b => b <> a) (filter P (l1 ++ a :: l2)).
Proof.
  intros H1 H2.
  assert (Hkeep : forall l : list Z,
    a ∉ l -> filter (fun b => b <> a) (filter P l) = filter P l).
  { intros l Hl. apply filter_all. intros b Hb.
    apply list_elem_of_filter in Hb as [_ Hb]. by intros ->. }
  rewrite !filter_app, (Hkeep l1 H1). f_equal.
  destruct (decide (P a)) as [Ha|Ha].
  - rewrite (filter_cons_True P a) by done.
    rewrite (filter_cons_False _ a) by (intros Hne; by apply Hne).
    by rewrite Hkeep.
  - rewrite (filter_cons_False P a) by done. by rewrite Hkeep.
Qed.

(** X16: a deleted task leaves the results of the queries and nothing else
    does: in a reachable world, after [delete_task] with the id of a held
    task [a], [filter_by_priority] and [search_by_keyword] return what they
    returned before without [a], in the same order. *)
Theorem queries_after_delete_task
    (w : world) (a : Z) (priority keyword : string) (lp lk : list Z) :
  reachable w ->
  a ∈ tasks w ->
  fst (filter_by_priority priority w) = Return lp ->
  fst (search_by_keyword keyword w) = Return lk ->
  fst (filter_by_priority priority (snd (delete_task (py_id a) w)))
  = Return (filter (fun b => b <> a) lp) /\
  fst (search_by_keyword keyword (snd (delete_task (py_id a) w)))
  = Return (filter (fun b => b <> a) lk).
Proof.
  intros Hreach Hin. apply reachable_wf in Hreach as Hwf. unfold py_id.
  destruct (delete_task_present a w Hin) as (l1 & l2 & Hw & Hl1 & ->).
  pose proof (wf_nodup w Hwf) as Hnd. rewrite Hw in Hnd.
  apply NoDup_app in Hnd as (_ & _ & H2). apply NoDup_cons in H2 as [Hl2 _].
  unfold filter_by_priority, search_by_keyword. simpl. rewrite Hw.
  intros [= <-] [= <-]. split; f_equal.
  - exact (filter_without (has_priority w (Str.lower priority)) l1 l2 a Hl1 Hl2).
  - exact (filter_without (matches w (Str.lower keyword)) l1 l2 a Hl1 Hl2).
Qed.

Lemma queries_after_delete_task_witness :
  reachable main_world /\
  4096%Z ∈ tasks main_world /\
  fst (filter_by_priority "high" main_world) = Return [4096%Z; 4288%Z] /\
  fst (search_by_keyword "fix" main_world) = Return [4288%Z] /\
  fst (filter_by_priority "high" (snd (delete_task (py_id 4096) main_world)))
  = Return (filter (fun b => b <> 4096%Z) [4096%Z; 4288%Z]) /\
  fst (search_by_keyword "fix" (snd (delete_task (py_id 4096) main_world)))
  = Return (filter (fun b => b <> 4096%Z) [4288%Z]).
Proof.
  assert (Hin : 4096%Z ∈ tasks main_world) by by_evaluation.
  assert (Hp : fst (filter_by_priority "high" main_world) = Return [4096%Z; 4288%Z])
    by (vm_compute; reflexivity).
  assert (Hk : fst (search_by_keyword "fix" main_world) = Return [4288%Z])
    by (vm_compute; reflexivity).
  split; [exact reachable_main_world|]. split; [exact Hin|].
  split; [exact Hp|]. split; [exact Hk|].
  exact (queries_after_delete_task main_world 4096 "high" "fix" _ _
           reachable_main_world Hin Hp Hk).
Defined.
